(** * go-web3: the event pipeline (listener, transaction processor,
      broadcast service, WebSocket clients)

    A shallow embedding of the Go sources of package [events] and the
    properties of its filter, its listener loop and its fan-out.

    Conventions.
    - [common.Address] ([20]byte) and [common.Hash] ([32]byte) are compared
      with [==] only; they are embedded as the big-endian numbers they
      denote, the zero value of the Go type being [0].
    - [*big.Int] is [Z], [uint64] is [N], [[]byte] is [list byte], a Go
      [string] (a byte sequence) is a Rocq [string].
    - A [select] with several ready cases picks one of them at random; the
      choice is an explicit argument of the embedded function.
    - [map[string]*WebSocketClient] is a [gmap string WebSocketClient]; as
      a client is only reached through its registry entry, the map is also
      the store of the clients' mutable state. *)

From Stdlib Require Import ZArith NArith Ascii String List Bool Lia.
From Stdlib.Strings Require Import Byte.
From stdpp Require Import base option list gmap strings.

Local Open Scope N_scope.

(** ** go-ethereum [common]: addresses, hashes, hex *)

Module common.

Definition Address := N.
Definition Hash := N.

(** The zero value of [common.Address]. *)
Definition zeroAddress : Address := 0.

(** [encoding/hex]: [const hextable = "0123456789abcdef"]. *)
Definition hextable : string := "0123456789abcdef".

Definition hexchar (n : N) : ascii :=
  match String.get (N.to_nat n) hextable with
  | Some c => c
  | None => "0"%char
  end.

(** [common.Bytes2Hex] is [hex.EncodeToString]: for every byte [v],
    [hextable[v>>4]] then [hextable[v&0x0f]]. *)
Fixpoint Bytes2Hex (d : list byte) : string :=
  match d with
  | [] => EmptyString
  | v :: rest =>
      String (hexchar (N.shiftr (Byte.to_N v) 4))
        (String (hexchar (N.land (Byte.to_N v) 15)) (Bytes2Hex rest))
  end.

End common.

(** ** Go's [strings] package, as far as [matchesMethodSignature] uses it *)

Module strings.

(** [strings.CutPrefix]. *)
Fixpoint CutPrefix (s prefix : string) {struct prefix} : option string :=
  match prefix, s with
  | EmptyString, _ => Some s
  | String p prefix', String c s' =>
      if Ascii.eqb c p then CutPrefix s' prefix' else None
  | String _ _, EmptyString => None
  end.

(** [strings.TrimPrefix]: [s] without the leading [prefix], or [s]
    itself when it does not start with [prefix]. *)
Definition TrimPrefix (s prefix : string) : string :=
  match CutPrefix s prefix with
  | Some after => after
  | None => s
  end.

(** [s[:n]] for [n <= len(s)]. *)
Fixpoint slice_to (n : nat) (s : string) : string :=
  match n, s with
  | S n', String c s' => String c (slice_to n' s')
  | _, _ => EmptyString
  end.

(** One step of the ASCII loop of [strings.EqualFold]: equal bytes, or
    the smaller one an upper-case letter and the larger one its
    lower-case form. *)
Definition fold_eq_ascii (sr tr : N) : bool :=
  if sr =? tr then true
  else
    let lo := N.min sr tr in
    let hi := N.max sr tr in
    (65 <=? lo) && (lo <=? 90) && (hi =? lo + 32).

(** [strings.EqualFold].  The ASCII loop of the library is written out.
    When a byte of either string is [>= utf8.RuneSelf] the library
    switches to comparing runes under Unicode simple folding.  In this
    program the first argument is always the output of [Bytes2Hex], so
    at that point a character of [0-9a-f] is compared with a rune
    [>= 0x80] (a decoded rune or [utf8.RuneError]); no such rune folds
    to a hexadecimal digit, and the library answers [false]. *)
Fixpoint EqualFold (s t : string) : bool :=
  match s, t with
  | EmptyString, EmptyString => true
  | String a s', String b t' =>
      let sr := N_of_ascii a in
      let tr := N_of_ascii b in
      if 128 <=? N.lor sr tr then false
      else fold_eq_ascii sr tr && EqualFold s' t'
  | _, _ => false
  end.

End strings.

(** ** transaction.go *)

Module Tx.
Import common.

(** What the program reads of a [*types.Transaction].  [tx_Sender] is
    the outcome of
    [types.Sender(types.LatestSignerForChainID(tx.ChainId()), tx)]:
    [None] when it returns an error. *)
Record Transaction := {
  tx_Hash : Hash;
  tx_To : option Address;
  tx_Value : Z;
  tx_GasPrice : Z;
  tx_Gas : N;
  tx_Data : list byte;
  tx_Sender : option Address
}.

Record TransactionInfo := {
  Transaction_ : Transaction;
  BlockHash : Hash;
  BlockNumber : N;
  From : Address;
  To : Address;
  Value : Z;
  GasPrice : Z;
  Gas : N;
  Input : list byte;
  IsContractCall : bool
}.

(** [OnlyContractTxs] and [MethodSignature] are not pointers: the
    criterion is absent at the zero value ([false], the empty string). *)
Record TransactionFilter := {
  FromAddress : option Address;
  ToAddress : option Address;
  MinValue : option Z;
  OnlyContractTxs : bool;
  MethodSignature : string
}.

Definition emptyFilter : TransactionFilter :=
  {| FromAddress := None; ToAddress := None; MinValue := None;
     OnlyContractTxs := false; MethodSignature := EmptyString |}.

Definition matchesMethodSignature (data : list byte) (signature : string) : bool :=
  if (length data <? 4)%nat then false
  else
    let signature := strings.TrimPrefix signature "0x" in
    if (8 <=? String.length signature)%nat then
      let methodID := Bytes2Hex (take 4 data) in
      strings.EqualFold methodID (strings.slice_to 8 signature)
    else false.

(** The method [matchesFilter] of [TransactionProcessor], with
    [p.filter] as [f].
    [info.Value.Cmp(min) < 0] is [Value < min]. *)
Definition matchesFilter (f : TransactionFilter) (info : TransactionInfo) : bool :=
  if match FromAddress f with
     | Some a => negb (From info =? a)
     | None => false
     end
  then false
  else if match ToAddress f with
          | Some a => negb (To info =? a)
          | None => false
          end
  then false
  else if match MinValue f with
          | Some m => (Value info <? m)%Z
          | None => false
          end
  then false
  else if OnlyContractTxs f && negb (IsContractCall info)
  then false
  else if negb (String.eqb (MethodSignature f) EmptyString)
          && negb (matchesMethodSignature (Input info) (MethodSignature f))
  then false
  else true.

(** *** The processor

    A handler is a Go closure; [W] is the state it acts on. *)
Section Processor.
Context {W : Type}.

Definition TransactionHandlerFunc := TransactionInfo -> W -> W.

Record TransactionProcessor := {
  handlers : list TransactionHandlerFunc;
  filter : option TransactionFilter
}.

Definition NewTransactionProcessor : TransactionProcessor :=
  {| handlers := []; filter := None |}.

Definition WithFilter (f : TransactionFilter) (p : TransactionProcessor) :
  TransactionProcessor :=
  {| handlers := handlers p; filter := Some f |}.

Definition OnTransaction (handler : TransactionHandlerFunc)
  (p : TransactionProcessor) : TransactionProcessor :=
  {| handlers := handlers p ++ [handler]; filter := filter p |}.

(** The [TransactionInfo] built by the callback of [Start]: [To] and
    [From] keep the zero value of [common.Address] when [tx.To()] is
    nil, respectively when [types.Sender] fails. *)
Definition newInfo (tx : Transaction) (blockHash : Hash) (blockNumber : N) :
  TransactionInfo :=
  {| Transaction_ := tx;
     BlockHash := blockHash;
     BlockNumber := blockNumber;
     From := match tx_Sender tx with Some from => from | None => zeroAddress end;
     To := match tx_To tx with Some to => to | None => zeroAddress end;
     Value := tx_Value tx;
     GasPrice := tx_GasPrice tx;
     Gas := tx_Gas tx;
     Input := tx_Data tx;
     IsContractCall :=
       (0 <? length (tx_Data tx))%nat
       && match tx_To tx with Some _ => true | None => false end |}.

(** [p.filter != nil && !p.matchesFilter(info)]: the callback returns
    before the handlers. *)
Definition filteredOut (p : TransactionProcessor) (info : TransactionInfo) : bool :=
  match filter p with
  | Some f => negb (matchesFilter f info)
  | None => false
  end.

(** The handler invocations the callback of [Start] makes for one
    transaction, in order. *)
Definition handlerCalls (p : TransactionProcessor) (tx : Transaction)
  (blockHash : Hash) (blockNumber : N) : list (W -> W) :=
  let info := newInfo tx blockHash blockNumber in
  if filteredOut p info then []
  else map (fun handler => handler info) (handlers p).

(** The callback that [Start] passes to [SubscribeToNewTransactions]. *)
Definition onNewTransaction (p : TransactionProcessor) (tx : Transaction)
  (blockHash : Hash) (blockNumber : N) (w : W) : W :=
  foldl (fun w call => call w) w (handlerCalls p tx blockHash blockNumber).

End Processor.
Arguments TransactionHandlerFunc : clear implicits.
Arguments TransactionProcessor : clear implicits.

End Tx.

(** ** Lines written with [log.Printf] *)

Module log.
Import common.

Definition error := string.

Inductive Line :=
| BlockSubscriptionError (err : error)
| GetBlockError (err : error)
| UnexpectedEventData
| HighValueDetected (hash : Hash) (value : Z)
| SendEventError (clientID : string) (err : error)
| MarshalEventError.

End log.

(** ** events.go: the listener *)

Module Listener.
Import common.

Definition EventType := string.
Definition EventTypeNewBlock : EventType := "new_block".
Definition EventTypeNewTransaction : EventType := "new_transaction".
Definition EventTypeContractEvent : EventType := "contract_event".

Record Header := { hdr_Hash : Hash }.

Record Block := {
  blk_Hash : Hash;
  blk_NumberU64 : N;
  blk_Transactions : list Tx.Transaction
}.

Record Log := {
  log_Address : Address;
  log_BlockHash : Hash;
  log_BlockNumber : N;
  log_TxHash : Hash
}.

(** [Data interface{}] holds a block, a transaction or a log. *)
Inductive EventData :=
| DataBlock (block : Block)
| DataTransaction (tx : Tx.Transaction)
| DataLog (vLog : Log).

Record Event := {
  ev_Type : EventType;
  ev_BlockHash : Hash;
  ev_BlockNum : N;
  ev_TxHash : Hash;
  ev_Data : EventData
}.

(** The event of a fetched block; [TxHash] is left at its zero value. *)
Definition blockEvent (block : Block) : Event :=
  {| ev_Type := EventTypeNewBlock;
     ev_BlockHash := blk_Hash block;
     ev_BlockNum := blk_NumberU64 block;
     ev_TxHash := 0;
     ev_Data := DataBlock block |}.

Definition txEvent (block : Block) (tx : Tx.Transaction) : Event :=
  {| ev_Type := EventTypeNewTransaction;
     ev_BlockHash := blk_Hash block;
     ev_BlockNum := blk_NumberU64 block;
     ev_TxHash := Tx.tx_Hash tx;
     ev_Data := DataTransaction tx |}.

(** What one iteration of the [select] of [subscribeToNewBlocks]
    receives; a received header comes with the answer of
    [l.client.BlockByHash(l.ctx, header.Hash())]. *)
Inductive Selected :=
| SubErr (err : log.error)
| RecvHeader (header : Header) (fetched : Block + log.error)
| CtxDone.

(** What the goroutine does: calls of [l.notifyHandlers] and log lines. *)
Inductive Action :=
| Notify (event : Event)
| Printf (line : log.Line).

(** The body of [case header := <-headers] once the block is there. *)
Definition processBlock (block : Block) : list Action :=
  Notify (blockEvent block)
  :: map (fun tx => Notify (txEvent block tx)) (blk_Transactions block).

(** The goroutine of [subscribeToNewBlocks], driven by what its
    [select] receives: its actions in order, and whether it is still in
    the loop (waiting in [select]) when the inputs are used up. *)
Fixpoint blockLoop (inputs : list Selected) : list Action * bool :=
  match inputs with
  | [] => ([], true)
  | SubErr err :: _ => ([Printf (log.BlockSubscriptionError err)], false)
  | CtxDone :: _ => ([], false)
  | RecvHeader header (inr err) :: rest =>
      let '(acts, running) := blockLoop rest in
      (Printf (log.GetBlockError err) :: acts, running)
  | RecvHeader header (inl block) :: rest =>
      let '(acts, running) := blockLoop rest in
      (processBlock block ++ acts, running)
  end.

(** The events handed to [notifyHandlers], in order. *)
Definition emitted (acts : list Action) : list Event :=
  omap (fun a => match a with Notify e => Some e | Printf _ => None end) acts.

(** [notifyHandlers]: one goroutine per handler registered for the
    event's type. *)
Definition notifyHandlers {H : Type} (handlers : gmap string (list H))
  (event : Event) : list (H * Event) :=
  map (fun handler => (handler, event)) (default [] (handlers !! ev_Type event)).

(** [Subscribe]. *)
Definition Subscribe {H : Type} (eventType : EventType) (handler : H)
  (handlers : gmap string (list H)) : gmap string (list H) :=
  <[eventType := default [] (handlers !! eventType) ++ [handler]]> handlers.

(** *** Contract logs ([SubscribeToContractEvents]) *)

(** The event of a log record. *)
Definition logEvent (vLog : Log) : Event :=
  {| ev_Type := EventTypeContractEvent;
     ev_BlockHash := log_BlockHash vLog;
     ev_BlockNum := log_BlockNumber vLog;
     ev_TxHash := log_TxHash vLog;
     ev_Data := DataLog vLog |}.

(** What one iteration of the [select] of the goroutine of
    [SubscribeToContractEvents] receives. *)
Inductive LogSelected :=
| LogSubErr (err : log.error)
| RecvLog (vLog : Log)
| LogCtxDone.

(** Its actions: a call of [l.notifyHandlers], or the line
    [Error in contract event subscription]. *)
Inductive ContractAction :=
| CNotify (event : Event)
| CPrintf (err : log.error).

Fixpoint contractLoop (inputs : list LogSelected) : list ContractAction * bool :=
  match inputs with
  | [] => ([], true)
  | LogSubErr err :: _ => ([CPrintf err], false)
  | LogCtxDone :: _ => ([], false)
  | RecvLog vLog :: rest =>
      let '(acts, running) := contractLoop rest in
      (CNotify (logEvent vLog) :: acts, running)
  end.

Definition contractEmitted (acts : list ContractAction) : list Event :=
  omap (fun a => match a with CNotify e => Some e | CPrintf _ => None end) acts.

(** The listener's own state: the subscriptions it opened, oldest
    first, and whether [l.cancel()] was called. *)
Record Subscriptions := {
  subscriptions : list nat;
  ctx_cancelled : bool
}.

(** The first lines of [subscribeToNewBlocks] and of
    [SubscribeToContractEvents]: [opened] is the outcome of the client's
    subscribe call, a subscription or an error; the error is returned
    and nothing is recorded, the subscription is appended. *)
Definition recordSubscription (opened : nat + log.error) (l : Subscriptions) :
  Subscriptions * option log.error :=
  match opened with
  | inr err => (l, Some err)
  | inl sub =>
      ({| subscriptions := subscriptions l ++ [sub];
          ctx_cancelled := ctx_cancelled l |}, None)
  end.

(** [Stop]: the context is cancelled and [Unsubscribe] is called on
    every recorded subscription, in order; the result is the state and
    the subscriptions unsubscribed. *)
Definition Stop (l : Subscriptions) : Subscriptions * list nat :=
  ({| subscriptions := subscriptions l; ctx_cancelled := true |},
   subscriptions l).

End Listener.

(** ** websocket.go: one connected client *)

Module WS.

Record EventFilters := {
  EventTypes : list Listener.EventType;
  ContractAddress : list string
}.

(** [send] is the content of the buffered channel [c.send], oldest
    message first, and [send_cap] its capacity; [cancelled] says that
    [c.cancel()] was called, so that [c.ctx.Done()] is closed;
    [conn_closed] that [c.conn.Close()] was called. *)
Record WebSocketClient := {
  ID : string;
  conn_closed : bool;
  send : list (list byte);
  send_cap : nat;
  cancelled : bool;
  filters : EventFilters
}.

(** [NewWebSocketClient]; [id] is the value of [uuid.New().String()]. *)
Definition NewWebSocketClient (id : string) : WebSocketClient :=
  {| ID := id;
     conn_closed := false;
     send := [];
     send_cap := 256;
     cancelled := false;
     filters := {| EventTypes := []; ContractAddress := [] |} |}.

Definition Close (c : WebSocketClient) : WebSocketClient :=
  {| ID := ID c;
     conn_closed := true;
     send := send c;
     send_cap := send_cap c;
     cancelled := true;
     filters := filters c |}.

Definition enqueue (message : list byte) (c : WebSocketClient) : WebSocketClient :=
  {| ID := ID c;
     conn_closed := conn_closed c;
     send := send c ++ [message];
     send_cap := send_cap c;
     cancelled := cancelled c;
     filters := filters c |}.

Definition errClosed : log.error := "client connection closed".
Definition errBufferFull : log.error := "client send buffer full".

(** [Send].  The channel send is ready when the buffer has room, the
    case [<-c.ctx.Done()] when the context is cancelled; with both
    ready the runtime picks one ([pick_send] says whether it is the
    send), with none the [default] case runs.  The function returns in
    every case: [Send] never blocks. *)
Definition Send (pick_send : bool) (c : WebSocketClient) (message : list byte) :
  WebSocketClient * option log.error :=
  let room := (length (send c) <? send_cap c)%nat in
  match room, cancelled c with
  | true, false => (enqueue message c, None)
  | true, true =>
      if pick_send then (enqueue message c, None) else (c, Some errClosed)
  | false, true => (c, Some errClosed)
  | false, false => (Close c, Some errBufferFull)
  end.

(** A receive [<-c.send] of the goroutine of [StartWriting], the only
    reader of the channel. *)
Definition receive (c : WebSocketClient) : option (list byte * WebSocketClient) :=
  match send c with
  | [] => None
  | message :: rest =>
      Some (message,
            {| ID := ID c; conn_closed := conn_closed c; send := rest;
               send_cap := send_cap c; cancelled := cancelled c;
               filters := filters c |})
  end.

(** The values [json.Unmarshal] stores in a [map[string]interface{}]. *)
#[warnings="-register-all"] Inductive JSON :=
| JNull
| JBool (b : bool)
| JNumber (n : Z)
| JString (s : string)
| JArray (items : list JSON)
| JObject (fields : list (string * JSON)).

(** [x.(string)] and [x.([]interface{})] on a map entry. *)
Definition asString (x : option JSON) : option string :=
  match x with Some (JString s) => Some s | _ => None end.

Definition asArray (x : option JSON) : option (list JSON) :=
  match x with Some (JArray items) => Some items | _ => None end.

(** The loops [for _, e := range arr { if s, ok := e.(string); ok {...} }]. *)
Definition stringsOf (items : list JSON) : list string :=
  omap (fun e => asString (Some e)) items.

Definition setEventTypes (types : list string) (c : WebSocketClient) : WebSocketClient :=
  {| ID := ID c; conn_closed := conn_closed c; send := send c;
     send_cap := send_cap c; cancelled := cancelled c;
     filters := {| EventTypes := types;
                   ContractAddress := ContractAddress (filters c) |} |}.

Definition setContractAddress (addresses : list string) (c : WebSocketClient) :
  WebSocketClient :=
  {| ID := ID c; conn_closed := conn_closed c; send := send c;
     send_cap := send_cap c; cancelled := cancelled c;
     filters := {| EventTypes := EventTypes (filters c);
                   ContractAddress := addresses |} |}.

(** [handleMessage], on the outcome [decoded] of
    [json.Unmarshal(message, &msg)] ([None] for an error).  The result
    is the client and, for a [subscribe] frame, the arguments of the
    call [service.SubscribeToContract(contract, events)]. *)
Definition handleMessage (decoded : option (gmap string JSON)) (c : WebSocketClient) :
  WebSocketClient * option (string * list string) :=
  match decoded with
  | None => (c, None)
  | Some msg =>
      match asString (msg !! "type"%string) with
      | None => (c, None)
      | Some msgType =>
          if String.eqb msgType "subscribe" then
            match asString (msg !! "contract"%string) with
            | Some contract =>
                let events :=
                  match asArray (msg !! "events"%string) with
                  | Some eventsArray => stringsOf eventsArray
                  | None => []
                  end in
                (c, Some (contract, events))
            | None => (c, None)
            end
          else if String.eqb msgType "filter" then
            let c :=
              match asArray (msg !! "eventTypes"%string) with
              | Some eventTypes => setEventTypes (stringsOf eventTypes) c
              | None => c
              end in
            let c :=
              match asArray (msg !! "contracts"%string) with
              | Some contracts => setContractAddress (stringsOf contracts) c
              | None => c
              end in
            (c, None)
          else (c, None)
      end
  end.

(** The client with its interest filters forgotten. *)
Definition withoutFilters (c : WebSocketClient) : WebSocketClient :=
  {| ID := ID c; conn_closed := conn_closed c; send := send c;
     send_cap := send_cap c; cancelled := cancelled c;
     filters := {| EventTypes := []; ContractAddress := [] |} |}.

(** What can happen to a client between its creation and its end: a
    [Send], a receive of the writer, a [Close], an inbound frame. *)
Inductive step : WebSocketClient -> WebSocketClient -> Prop :=
| step_Send pick_send c message :
    step c (Send pick_send c message).1
| step_receive c message c' :
    receive c = Some (message, c') -> step c c'
| step_Close c :
    step c (Close c)
| step_handleMessage decoded c :
    step c (handleMessage decoded c).1.

Inductive reachable (id : string) : WebSocketClient -> Prop :=
| reachable_new : reachable id (NewWebSocketClient id)
| reachable_step c c' : reachable id c -> step c c' -> reachable id c'.

(** *** The writer ([StartWriting]) *)

(** What one iteration of the [select] of the writer receives, with the
    outcome of the writes it then makes: a message from [c.send] (with
    whether [NextWriter] and [w.Close] succeed), a tick of the 45 s
    ticker (with whether the ping is written), or the end of the
    context. *)
Inductive WriterEvent :=
| WMessage (nextWriter_ok close_ok : bool)
| WTick (ping_ok : bool)
| WDone.

(** What the writer takes from the queue and puts on the wire: the
    messages of one text frame, with whether the frame went out, or a
    ping. *)
Inductive WriterOutput :=
| Batch (messages : list (list byte)) (delivered : bool)
| Ping (delivered : bool).

Definition batchMessages (o : WriterOutput) : list (list byte) :=
  match o with
  | Batch messages _ => messages
  | Ping _ => []
  end.

(** The content of the text frame of a batch: the first message, then
    for every queued message a newline and the message. *)
Definition frameBytes (first : list byte) (queued : list (list byte)) : list byte :=
  first ++ concat (map (fun message => x0a :: message) queued).

Definition withQueue (queue : list (list byte)) (c : WebSocketClient) : WebSocketClient :=
  {| ID := ID c; conn_closed := conn_closed c; send := queue;
     send_cap := send_cap c; cancelled := cancelled c; filters := filters c |}.

(** The deferred [c.conn.Close()] of the writer. *)
Definition closeConn (c : WebSocketClient) : WebSocketClient :=
  {| ID := ID c; conn_closed := true; send := send c;
     send_cap := send_cap c; cancelled := cancelled c; filters := filters c |}.

(** One iteration of the loop of [StartWriting]: the client, the
    output, and whether the loop goes on.  The message case takes the
    oldest message; when [NextWriter] fails the goroutine returns with
    that message taken and nothing written; otherwise it takes the
    [len(c.send)] messages queued behind it into the same frame.  Every
    return runs the deferred [c.conn.Close()].  The case is ready only
    when the queue is not empty (the channel is never closed). *)
Definition writerStep (ev : WriterEvent) (c : WebSocketClient) :
  WebSocketClient * list WriterOutput * bool :=
  match ev with
  | WMessage nextWriter_ok close_ok =>
      match send c with
      | [] => (c, [], true)
      | message :: queued =>
          if nextWriter_ok then
            if close_ok
            then (withQueue [] c, [Batch (message :: queued) true], true)
            else (closeConn (withQueue [] c), [Batch (message :: queued) false], false)
          else (closeConn (withQueue queued c), [Batch [message] false], false)
      end
  | WTick ping_ok =>
      if ping_ok then (c, [Ping true], true)
      else (closeConn c, [Ping false], false)
  | WDone => (closeConn c, [], false)
  end.

(** A client under its two users: broadcasters that [Send], and its
    writer. *)
Inductive QueueOp :=
| OpSend (pick_send : bool) (message : list byte)
| OpWriter (ev : WriterEvent).

Record QueueRun := {
  q_client : WebSocketClient;
  q_writing : bool;
  q_accepted : list (list byte);
  q_taken : list WriterOutput
}.

Definition startRun (c : WebSocketClient) : QueueRun :=
  {| q_client := c; q_writing := true; q_accepted := []; q_taken := [] |}.

(** [q_accepted] collects the messages for which [Send] returned [nil],
    [q_taken] what the writer did; a stopped writer does nothing. *)
Definition queueStep (r : QueueRun) (op : QueueOp) : QueueRun :=
  match op with
  | OpSend pick_send message =>
      let '(c, err) := Send pick_send (q_client r) message in
      {| q_client := c; q_writing := q_writing r;
         q_accepted := match err with
                       | None => q_accepted r ++ [message]
                       | Some _ => q_accepted r
                       end;
         q_taken := q_taken r |}
  | OpWriter ev =>
      if q_writing r then
        let '(c, out, running) := writerStep ev (q_client r) in
        {| q_client := c; q_writing := running;
           q_accepted := q_accepted r; q_taken := q_taken r ++ out |}
      else r
  end.

End WS.

(** ** service.go: the broadcast service *)

Module Service.
Import common.

(** A value of the [map[string]interface{}] given to [json.Marshal]. *)
Inductive Field :=
| FString (s : string)
| FUint64 (n : N)
| FData (d : Listener.EventData).

(** What the handlers of the service read and write: the registry
    [s.clients], the lines logged, and [ready_pick], how the runtime
    resolves for the client of a given ID a [select] of [Send] that has
    both its send and its [Done] case ready. *)
Record Hub := {
  clients : gmap string WS.WebSocketClient;
  ready_pick : string -> bool;
  logged : list log.Line
}.

Definition Printf (line : log.Line) (h : Hub) : Hub :=
  {| clients := clients h; ready_pick := ready_pick h;
     logged := logged h ++ [line] |}.

Section Marshalling.
(** Outside the repository: [Hash.Hex], [Address.Hex], [big.Int.String]
    and [json.Marshal] ([None] for an error). *)
Variable Hash_Hex : Hash -> string.
Variable Address_Hex : Address -> string.
Variable BigInt_String : Z -> string.
Variable json_Marshal : list (string * Field) -> option (list byte).

(** [broadcastRawEvent]: one [Send] per registered client.  An error is
    logged and nothing else: the registry keeps all its keys.  The
    [range] over the map has no fixed order; every client is visited
    once and the visits do not depend on each other, the log lines are
    given in the order of [map_to_list]. *)
Definition broadcastRawEvent (eventJSON : list byte) (h : Hub) : Hub :=
  let sent := fun client : WS.WebSocketClient =>
    WS.Send (ready_pick h (WS.ID client)) client eventJSON in
  {| clients := (fun client => (sent client).1) <$> clients h;
     ready_pick := ready_pick h;
     logged := logged h ++
       omap (fun '(_, client) =>
               log.SendEventError (WS.ID client) <$> (sent client).2)
            (map_to_list (clients h)) |}.

Definition eventFields (event : Listener.Event) : list (string * Field) :=
  [ ("type"%string, FString (Listener.ev_Type event));
    ("blockHash"%string, FString (Hash_Hex (Listener.ev_BlockHash event)));
    ("blockNum"%string, FUint64 (Listener.ev_BlockNum event));
    ("txHash"%string, FString (Hash_Hex (Listener.ev_TxHash event)));
    ("data"%string, FData (Listener.ev_Data event)) ].

Definition broadcastEvent (event : Listener.Event) (h : Hub) : Hub :=
  match json_Marshal (eventFields event) with
  | None => Printf log.MarshalEventError h
  | Some eventJSON => broadcastRawEvent eventJSON h
  end.

(** [big.NewInt(1000000000000000000)]: 1 ETH in wei. *)
Definition oneEther : Z := 1000000000000000000.

Definition highValueFields (info : Tx.TransactionInfo) : list (string * Field) :=
  [ ("type"%string, FString "high_value_transaction");
    ("hash"%string, FString (Hash_Hex (Tx.tx_Hash (Tx.Transaction_ info))));
    ("from"%string, FString (Address_Hex (Tx.From info)));
    ("to"%string, FString (Address_Hex (Tx.To info)));
    ("value"%string, FString (BigInt_String (Tx.Value info)));
    ("blockHash"%string, FString (Hash_Hex (Tx.BlockHash info))) ].

(** The closure that [setupSubscriptions] gives to
    [s.txProcessor.OnTransaction]: [info.Value.Cmp(1 ETH) > 0] guards the
    log line; the event is built, marshalled and broadcast after the
    [if]. *)
Definition highValueHandler (info : Tx.TransactionInfo) (h : Hub) : Hub :=
  let h :=
    if (oneEther <? Tx.Value info)%Z
    then Printf (log.HighValueDetected (Tx.tx_Hash (Tx.Transaction_ info))
                   (Tx.Value info)) h
    else h in
  match json_Marshal (highValueFields info) with
  | Some eventJSON => broadcastRawEvent eventJSON h
  | None => h
  end.

(** The closures registered with the listener. *)
Inductive Handler :=
| BroadcastHandler
| TransactionWrapper.

Record Service := {
  listener : gmap string (list Handler);
  hub : Hub;
  txProcessor : Tx.TransactionProcessor Hub
}.

Definition NewService (pick : string -> bool) : Service :=
  {| listener := ∅;
     hub := {| clients := ∅; ready_pick := pick; logged := [] |};
     txProcessor := Tx.NewTransactionProcessor |}.

(** [setupSubscriptions]: the three broadcasting handlers, the handler
    on the processor, then [s.txProcessor.Start()], which registers the
    wrapper of [SubscribeToNewTransactions]. *)
Definition setupSubscriptions (s : Service) : Service :=
  let l := Listener.Subscribe Listener.EventTypeNewBlock BroadcastHandler (listener s) in
  let l := Listener.Subscribe Listener.EventTypeNewTransaction BroadcastHandler l in
  let l := Listener.Subscribe Listener.EventTypeContractEvent BroadcastHandler l in
  let p := Tx.OnTransaction highValueHandler (txProcessor s) in
  let l := Listener.Subscribe Listener.EventTypeNewTransaction TransactionWrapper l in
  {| listener := l; hub := hub s; txProcessor := p |}.

(** [Start]; [subscribed] is the outcome of [s.listener.Start()]. *)
Definition Start (subscribed : option log.error) (s : Service) :
  Service * option log.error :=
  match subscribed with
  | Some err => (s, Some err)
  | None => (setupSubscriptions s, None)
  end.

Definition withHub (h : Hub) (s : Service) : Service :=
  {| listener := listener s; hub := h; txProcessor := txProcessor s |}.

(** One handler goroutine started by [notifyHandlers]. *)
Definition runHandler (handler : Handler) (event : Listener.Event) (s : Service) :
  Service :=
  match handler with
  | BroadcastHandler => withHub (broadcastEvent event (hub s)) s
  | TransactionWrapper =>
      if negb (String.eqb (Listener.ev_Type event) Listener.EventTypeNewTransaction)
      then s
      else
        match Listener.ev_Data event with
        | Listener.DataTransaction tx =>
            withHub (Tx.onNewTransaction (txProcessor s) tx
                       (Listener.ev_BlockHash event) (Listener.ev_BlockNum event)
                       (hub s)) s
        | _ => withHub (Printf log.UnexpectedEventData (hub s)) s
        end
  end.

Definition AddTransactionFilter (f : Tx.TransactionFilter) (s : Service) : Service :=
  {| listener := listener s; hub := hub s;
     txProcessor := Tx.WithFilter f (txProcessor s) |}.

(** [WatchAddress]; [addr] is [common.HexToAddress(address)]. *)
Definition WatchAddress (addr : Address) (s : Service) : Service :=
  AddTransactionFilter
    {| Tx.FromAddress := Some addr; Tx.ToAddress := None; Tx.MinValue := None;
       Tx.OnlyContractTxs := false; Tx.MethodSignature := EmptyString |} s.

End Marshalling.

Definition RegisterClient (client : WS.WebSocketClient) (h : Hub) : Hub :=
  {| clients := <[WS.ID client := client]> (clients h);
     ready_pick := ready_pick h; logged := logged h |}.

(** [UnregisterClient]: the client is closed and its entry deleted; no
    effect when the ID is not registered. *)
Definition UnregisterClient (clientID : string) (h : Hub) : Hub :=
  match clients h !! clientID with
  | Some _ =>
      {| clients := delete clientID (clients h);
         ready_pick := ready_pick h; logged := logged h |}
  | None => h
  end.

(** [Stop], on the registry: [client.Close()] for every registered
    client; no entry is deleted.  (It also stops the listener, see
    [Listener.Stop], and cancels the context of the processor, which
    nothing reads.) *)
Definition Stop (h : Hub) : Hub :=
  {| clients := WS.Close <$> clients h;
     ready_pick := ready_pick h; logged := logged h |}.

(** The [ethereum.FilterQuery] of a contract subscription. *)
Record FilterQuery := {
  Addresses : list Address;
  Topics : list (list Hash)
}.

Section Topics.
(** Outside the repository: [common.HexToAddress], [common.HexToHash]. *)
Variable HexToAddress : string -> Address.
Variable HexToHash : string -> Hash.

(** [SubscribeToContract] up to the call of
    [l.client.SubscribeFilterLogs]: the query that
    [SubscribeToContractEvents] builds from the address and the topics.
    Without signatures [topics] stays nil; otherwise it has one
    position, holding the hash of every signature. *)
Definition SubscribeToContract (contractAddress : string)
  (eventSignatures : list string) : FilterQuery :=
  let address := HexToAddress contractAddress in
  let topics :=
    if (0 <? length eventSignatures)%nat
    then [map HexToHash eventSignatures]
    else [] in
  {| Addresses := [address]; Topics := topics |}.

(** A frame read by [StartReading], handled, and the query of the
    subscription it asks for, if any. *)
Definition frameQuery (decoded : option (gmap string WS.JSON)) (c : WS.WebSocketClient) :
  option FilterQuery :=
  match (WS.handleMessage decoded c).2 with
  | Some (contract, events) => Some (SubscribeToContract contract events)
  | None => None
  end.

End Topics.

End Service.

(** ** The specification's vocabulary *)

Module Spec.
Import common Tx.

(** ASCII lower-casing, to say that two hexadecimal texts are equal up to
    the case of their letters. *)
Definition lowerChar (c : ascii) : ascii :=
  let n := N_of_ascii c in
  if (65 <=? n) && (n <=? 90) then ascii_of_N (n + 32) else c.

Fixpoint lowerASCII (s : string) : string :=
  match s with
  | EmptyString => EmptyString
  | String c s' => String (lowerChar c) (lowerASCII s')
  end.

(** The five criteria of a filter, each read on its own: when it is
    present, what it asks of the transaction. *)
Definition senderCriterion (f : TransactionFilter) (t : TransactionInfo) : Prop :=
  forall a, FromAddress f = Some a -> From t = a.

Definition recipientCriterion (f : TransactionFilter) (t : TransactionInfo) : Prop :=
  forall a, ToAddress f = Some a -> To t = a.

Definition minValueCriterion (f : TransactionFilter) (t : TransactionInfo) : Prop :=
  forall m, MinValue f = Some m -> (m <= Value t)%Z.

Definition contractCallCriterion (f : TransactionFilter) (t : TransactionInfo) : Prop :=
  OnlyContractTxs f = true -> IsContractCall t = true.

Definition methodCriterion (f : TransactionFilter) (t : TransactionInfo) : Prop :=
  MethodSignature f <> EmptyString ->
  matchesMethodSignature (Input t) (MethodSignature f) = true.

(** [matches(f, t)] as the specification words it: the conjunction of
    the present criteria. *)
Definition matches (f : TransactionFilter) (t : TransactionInfo) : Prop :=
  senderCriterion f t /\ recipientCriterion f t /\ minValueCriterion f t
  /\ contractCallCriterion f t /\ methodCriterion f t.

(** The filter [f] with its sender criterion removed. *)
Definition withoutSender (f : TransactionFilter) : TransactionFilter :=
  {| FromAddress := None; ToAddress := ToAddress f; MinValue := MinValue f;
     OnlyContractTxs := OnlyContractTxs f; MethodSignature := MethodSignature f |}.

(** The events of one block in the order the specification asks for:
    the block's [NewBlock] event, then one [NewTransaction] event per
    transaction, by index. *)
Definition blockEvents (block : Listener.Block) : list Listener.Event :=
  Listener.blockEvent block
  :: map (Listener.txEvent block) (Listener.blk_Transactions block).

(** A feed of headers each of which is answered with its block. *)
Definition fetchedFeed (feed : list (Listener.Header * Listener.Block)) :
  list Listener.Selected :=
  map (fun hb => Listener.RecvHeader hb.1 (inl hb.2)) feed.

Definition countOfType (ty : Listener.EventType) (events : list Listener.Event) : nat :=
  length (List.filter (fun e => String.eqb (Listener.ev_Type e) ty) events).

Definition totalTransactions (feed : list (Listener.Header * Listener.Block)) : nat :=
  list_sum (map (fun hb => length (Listener.blk_Transactions hb.2)) feed).

(** The registry after every client has handled the inbound frames
    [frames] assigns to its ID (each frame as decoded by
    [json.Unmarshal]). *)
Definition afterFrames (frames : string -> list (option (gmap string WS.JSON)))
  (h : Service.Hub) : Service.Hub :=
  {| Service.clients :=
       (fun c => foldl (fun c decoded => (WS.handleMessage decoded c).1) c
                   (frames (WS.ID c))) <$> Service.clients h;
     Service.ready_pick := Service.ready_pick h;
     Service.logged := Service.logged h |}.

(** Two registries that are the same up to the interest filters of
    their clients. *)
Definition sameButFilters (m1 m2 : gmap string WS.WebSocketClient) : Prop :=
  WS.withoutFilters <$> m1 = WS.withoutFilters <$> m2.

(** The inputs that end the goroutine of [subscribeToNewBlocks]. *)
Definition endsLoop (i : Listener.Selected) : bool :=
  match i with
  | Listener.SubErr _ | Listener.CtxDone => true
  | Listener.RecvHeader _ _ => false
  end.

(** The lines of a text frame: the bytes between newlines. *)
Fixpoint splitLines (bs : list byte) : list (list byte) :=
  match bs with
  | [] => [[]]
  | b :: rest =>
      if Byte.eqb b x0a then [] :: splitLines rest
      else match splitLines rest with
           | line :: lines => (b :: line) :: lines
           | [] => [[b]]
           end
  end.

(** The strings among the items of a JSON array, in order. *)
Fixpoint stringItems (items : list WS.JSON) : list string :=
  match items with
  | [] => []
  | WS.JString s :: rest => s :: stringItems rest
  | _ :: rest => stringItems rest
  end.

(** [n] sends of the messages [messages] to a client, with the
    scheduling [picks]: the client and the errors returned, in order. *)
Fixpoint sendAll (picks : nat -> bool) (n : nat) (messages : list (list byte))
  (c : WS.WebSocketClient) : WS.WebSocketClient * list (option log.error) :=
  match messages with
  | [] => (c, [])
  | message :: rest =>
      let '(c1, err) := WS.Send (picks n) c message in
      let '(c2, errs) := sendAll picks (S n) rest c1 in
      (c2, err :: errs)
  end.

End Spec.

(** ** Concrete inputs *)

Module Examples.
Import common.

(** A plain transfer whose sender could not be recovered. *)
Definition txNoSender : Tx.Transaction :=
  {| Tx.tx_Hash := 1; Tx.tx_To := Some 5; Tx.tx_Value := 7%Z;
     Tx.tx_GasPrice := 1%Z; Tx.tx_Gas := 21000; Tx.tx_Data := [];
     Tx.tx_Sender := None |}.

(** The filter [WatchAddress] installs for the zero address. *)
Definition zeroSenderFilter : Tx.TransactionFilter :=
  {| Tx.FromAddress := Some zeroAddress; Tx.ToAddress := None;
     Tx.MinValue := None; Tx.OnlyContractTxs := false;
     Tx.MethodSignature := EmptyString |}.

(** A processor with one handler, which records what it is given. *)
Definition recorder : Tx.TransactionProcessor (list Tx.TransactionInfo) :=
  Tx.WithFilter zeroSenderFilter
    (Tx.OnTransaction (fun info seen => seen ++ [info]) Tx.NewTransactionProcessor).

Definition shortSignatureFilter : Tx.TransactionFilter :=
  {| Tx.FromAddress := None; Tx.ToAddress := None; Tx.MinValue := None;
     Tx.OnlyContractTxs := false; Tx.MethodSignature := "0xa9059c" |}.

(** The client [slow] after [n] messages were queued and none was
    written out; at 256 its queue is full, and one more [Send] closes
    it. *)
Definition filled (n : nat) : WS.WebSocketClient :=
  {| WS.ID := "slow"; WS.conn_closed := false; WS.send := replicate n [x2a];
     WS.send_cap := 256; WS.cancelled := false;
     WS.filters := {| WS.EventTypes := []; WS.ContractAddress := [] |} |}.

Definition saturated : WS.WebSocketClient := filled 256.

Definition overflowed : WS.WebSocketClient := WS.Close saturated.

(** A registry of two clients, one of them with a full queue. *)
Definition twoClients : Service.Hub :=
  Service.RegisterClient (WS.NewWebSocketClient "fast")
    (Service.RegisterClient saturated
       {| Service.clients := ∅; Service.ready_pick := fun _ => true;
          Service.logged := [] |}).

(** Stand-ins for the library functions of the marshalling. *)
Definition hexStub (n : N) : string := "0x".
Definition decimalStub (z : Z) : string := "0".
Definition marshalStub (fields : list (string * Service.Field)) : option (list byte) :=
  Some (concat (map (fun kv =>
                       match kv.2 with
                       | Service.FString v => list_byte_of_string v
                       | _ => []
                       end) fields)).

(** A started service with one client and a filter that asks for a
    value of at least 1 wei. *)
Definition lowValueFilter : Tx.TransactionFilter :=
  {| Tx.FromAddress := None; Tx.ToAddress := None; Tx.MinValue := Some 1%Z;
     Tx.OnlyContractTxs := false; Tx.MethodSignature := EmptyString |}.

Definition startedService : Service.Service :=
  Service.AddTransactionFilter lowValueFilter
    (Service.withHub
       {| Service.clients := {[ "fast"%string := WS.NewWebSocketClient "fast" ]};
          Service.ready_pick := fun _ => true; Service.logged := [] |}
       (Service.Start hexStub hexStub decimalStub marshalStub None
          (Service.NewService (fun _ => true))).1).

Definition smallBlock : Listener.Block :=
  {| Listener.blk_Hash := 9; Listener.blk_NumberU64 := 1;
     Listener.blk_Transactions := [txNoSender] |}.

(** A [filter] frame asking for block events of one contract only. *)
Definition filterFrame : gmap string WS.JSON :=
  {[ "type"%string := WS.JString "filter";
     "eventTypes"%string := WS.JArray [WS.JString "new_block"];
     "contracts"%string := WS.JArray [WS.JString "0xabc"; WS.JNull] ]}.

Definition blockOnlyClients : Service.Hub :=
  Spec.afterFrames (fun _ => [Some filterFrame]) twoClients.

(** A call of a contract, and the filter that asks for contract calls
    only. *)
Definition txCall : Tx.Transaction :=
  {| Tx.tx_Hash := 2; Tx.tx_To := Some 5; Tx.tx_Value := 0%Z;
     Tx.tx_GasPrice := 1%Z; Tx.tx_Gas := 60000;
     Tx.tx_Data := [xa9; x05; x9c; xbb; x00]; Tx.tx_Sender := Some 3 |}.

Definition contractOnlyFilter : Tx.TransactionFilter :=
  {| Tx.FromAddress := None; Tx.ToAddress := None; Tx.MinValue := None;
     Tx.OnlyContractTxs := true; Tx.MethodSignature := EmptyString |}.

(** The deployment of a contract: no recipient. *)
Definition txCreate : Tx.Transaction :=
  {| Tx.tx_Hash := 3; Tx.tx_To := None; Tx.tx_Value := 0%Z;
     Tx.tx_GasPrice := 1%Z; Tx.tx_Gas := 900000;
     Tx.tx_Data := [x60; x80]; Tx.tx_Sender := Some 3 |}.

Definition recipientFilter (a : common.Address) : Tx.TransactionFilter :=
  {| Tx.FromAddress := None; Tx.ToAddress := Some a; Tx.MinValue := None;
     Tx.OnlyContractTxs := false; Tx.MethodSignature := EmptyString |}.

(** Two [filter] frames, the second without a list of contracts, and a
    [subscribe] frame whose [events] hold one signature and a number. *)
Definition secondFilterFrame : gmap string WS.JSON :=
  {[ "type"%string := WS.JString "filter";
     "eventTypes"%string := WS.JArray [WS.JString "contract_event"; WS.JBool true] ]}.

Definition subscribeFrame : gmap string WS.JSON :=
  {[ "type"%string := WS.JString "subscribe";
     "contract"%string := WS.JString "0xabc";
     "events"%string := WS.JArray [WS.JString "0xddf2"; WS.JNumber 7] ]}.

Definition addressStub (s : string) : common.Address := N.of_nat (String.length s).
Definition hashStub (s : string) : common.Hash := N.of_nat (String.length s).

End Examples.

(** * Properties *)

(** ** The transaction filter *)

Module TxProps.
Import common Tx Spec.

Lemma matchesFilter_true_iff f t :
  matchesFilter f t = true <->
  match FromAddress f with Some a => From t = a | None => True end
  /\ match ToAddress f with Some a => To t = a | None => True end
  /\ match MinValue f with Some m => (m <= Value t)%Z | None => True end
  /\ (OnlyContractTxs f = true -> IsContractCall t = true)
  /\ (MethodSignature f <> EmptyString ->
      matchesMethodSignature (Input t) (MethodSignature f) = true).
Proof.
  unfold matchesFilter.
  assert (Hstr : negb (String.eqb (MethodSignature f) EmptyString) = true
                 <-> MethodSignature f <> EmptyString).
  { destruct (String.eqb_spec (MethodSignature f) EmptyString); simpl;
      split; congruence. }
  destruct (FromAddress f) as [a|]; [destruct (N.eqb_spec (From t) a); simpl|];
    [| split; [discriminate | tauto] |];
    (destruct (ToAddress f) as [b|]; [destruct (N.eqb_spec (To t) b); simpl|];
     [| split; [discriminate | tauto] |]);
    (destruct (MinValue f) as [m|]; [destruct (Z.ltb_spec (Value t) m); simpl|];
     [split; [discriminate | intros (_ & _ & Hv & _); lia] | |]);
    (destruct (OnlyContractTxs f), (IsContractCall t); simpl;
     try (split; [discriminate | intros (_ & _ & _ & Hc & _); now specialize (Hc eq_refl)]));
    (destruct (negb (String.eqb (MethodSignature f) EmptyString)) eqn:Hs; simpl;
     [ apply proj1 in Hstr; specialize (Hstr eq_refl);
       destruct (matchesMethodSignature (Input t) (MethodSignature f)); simpl;
       [ split; [intros _; repeat split; auto; lia | reflexivity]
       | split; [discriminate | intros (_ & _ & _ & _ & Hg); now specialize (Hg Hstr)] ]
     | split; [intros _; repeat split; auto; try lia;
               intros Hne; apply Hstr in Hne; discriminate
              | reflexivity] ]).
Qed.

(** C4.  [matchesFilter f t] holds exactly when every present criterion
    of [f] (sender, recipient, minimum value, only-contract-calls flag,
    method signature) is satisfied by [t] on its own, an absent criterion
    asking nothing; the filter without criteria matches every
    transaction. *)
Theorem matchesFilter_conjunction_law :
  (forall f t, matchesFilter f t = true <-> Spec.matches f t)
  /\ (forall t, matchesFilter emptyFilter t = true).
Proof.
  split.
  - intros f t. rewrite matchesFilter_true_iff.
    unfold Spec.matches, senderCriterion, recipientCriterion, minValueCriterion,
      contractCallCriterion, methodCriterion.
    destruct (FromAddress f) as [a|], (ToAddress f) as [b|], (MinValue f) as [m|];
      split; intros (H1 & H2 & H3 & H4 & H5); repeat split; auto;
      try (intros ? [= <-]; assumption); try discriminate.
  - intros t. reflexivity.
Qed.

(** *** Method signatures *)

Lemma mms_short data signature :
  (length data < 4)%nat -> matchesMethodSignature data signature = false.
Proof.
  intros Hlen. unfold matchesMethodSignature.
  destruct (Nat.ltb_spec (length data) 4); [reflexivity | lia].
Qed.

Lemma mms_short_signature data signature :
  (String.length (strings.TrimPrefix signature "0x") < 8)%nat ->
  matchesMethodSignature data signature = false.
Proof.
  intros Hlen. unfold matchesMethodSignature.
  destruct (length data <? 4)%nat; [reflexivity|].
  destruct (Nat.leb_spec 8 (String.length (strings.TrimPrefix signature "0x")));
    [lia | reflexivity].
Qed.

Lemma mms_four b1 b2 b3 b4 rest signature :
  matchesMethodSignature (b1 :: b2 :: b3 :: b4 :: rest) signature =
  let signature := strings.TrimPrefix signature "0x" in
  if (8 <=? String.length signature)%nat
  then strings.EqualFold (Bytes2Hex [b1; b2; b3; b4]) (strings.slice_to 8 signature)
  else false.
Proof. reflexivity. Qed.

(** [EqualFold] on a hexadecimal text goes two characters, that is one
    byte, at a time. *)
Lemma EqualFold_hex_cons v l c1 c2 t :
  strings.EqualFold (Bytes2Hex (v :: l)) (String c1 (String c2 t)) =
  strings.EqualFold (Bytes2Hex [v]) (String c1 (String c2 EmptyString))
  && strings.EqualFold (Bytes2Hex l) t.
Proof.
  cbn [Bytes2Hex strings.EqualFold].
  destruct (128 <=? _); [reflexivity|].
  destruct (strings.fold_eq_ascii _ _); [|reflexivity].
  destruct (128 <=? _); [reflexivity|].
  destruct (strings.fold_eq_ascii _ _); reflexivity.
Qed.

Ltac lower_cases c Hc :=
  destruct c as [[] [] [] [] [] [] [] []]; vm_compute in Hc;
  try discriminate Hc; auto.

Lemma lowerChar_0 c : lowerChar c = "0"%char -> c = "0"%char.
Proof. intros Hc. lower_cases c Hc. Qed.

Lemma lowerChar_5 c : lowerChar c = "5"%char -> c = "5"%char.
Proof. intros Hc. lower_cases c Hc. Qed.

Lemma lowerChar_9 c : lowerChar c = "9"%char -> c = "9"%char.
Proof. intros Hc. lower_cases c Hc. Qed.

Lemma lowerChar_a c : lowerChar c = "a"%char -> c = "a"%char \/ c = "A"%char.
Proof. intros Hc. lower_cases c Hc. Qed.

Lemma lowerChar_b c : lowerChar c = "b"%char -> c = "b"%char \/ c = "B"%char.
Proof. intros Hc. lower_cases c Hc. Qed.

Lemma lowerChar_c c : lowerChar c = "c"%char -> c = "c"%char \/ c = "C"%char.
Proof. intros Hc. lower_cases c Hc. Qed.

Ltac each_byte v :=
  destruct v; vm_compute; split; intros Hv; (reflexivity || discriminate Hv).

Lemma fold_byte_a9 v c1 c2 :
  lowerChar c1 = "a"%char -> lowerChar c2 = "9"%char ->
  strings.EqualFold (Bytes2Hex [v]) (String c1 (String c2 EmptyString)) = true
  <-> v = xa9.
Proof.
  intros [->| ->]%lowerChar_a ->%lowerChar_9; each_byte v.
Qed.

Lemma fold_byte_05 v c1 c2 :
  lowerChar c1 = "0"%char -> lowerChar c2 = "5"%char ->
  strings.EqualFold (Bytes2Hex [v]) (String c1 (String c2 EmptyString)) = true
  <-> v = x05.
Proof.
  intros ->%lowerChar_0 ->%lowerChar_5; each_byte v.
Qed.

Lemma fold_byte_9c v c1 c2 :
  lowerChar c1 = "9"%char -> lowerChar c2 = "c"%char ->
  strings.EqualFold (Bytes2Hex [v]) (String c1 (String c2 EmptyString)) = true
  <-> v = x9c.
Proof.
  intros ->%lowerChar_9 [->| ->]%lowerChar_c; each_byte v.
Qed.

Lemma fold_byte_bb v c1 c2 :
  lowerChar c1 = "b"%char -> lowerChar c2 = "b"%char ->
  strings.EqualFold (Bytes2Hex [v]) (String c1 (String c2 EmptyString)) = true
  <-> v = xbb.
Proof.
  intros [->| ->]%lowerChar_b [->| ->]%lowerChar_b; each_byte v.
Qed.

(** A text that lower-cases to [a9059cbb] does not start with [0x], so
    [TrimPrefix] leaves it alone; with [0x] in front it is what remains. *)
Lemma TrimPrefix_transfer_id body :
  lowerASCII body = "a9059cbb"%string ->
  strings.TrimPrefix body "0x" = body
  /\ strings.TrimPrefix (String "0" (String "x" body)) "0x" = body.
Proof.
  intros Hb. split; [|reflexivity].
  destruct body as [|c body]; [discriminate|].
  simpl in Hb. injection Hb as Hc _.
  apply lowerChar_a in Hc as [->| ->]; reflexivity.
Qed.

(** The comparison of [matchesMethodSignature] for four bytes of input
    and a trimmed signature that lower-cases to [a9059cbb]. *)
Lemma EqualFold_transfer_id body b1 b2 b3 b4 :
  lowerASCII body = "a9059cbb"%string ->
  (if (8 <=? String.length body)%nat
   then strings.EqualFold (Bytes2Hex [b1; b2; b3; b4]) (strings.slice_to 8 body)
   else false) = true
  <-> b1 = xa9 /\ b2 = x05 /\ b3 = x9c /\ b4 = xbb.
Proof.
  intros Hb.
  destruct body as [|c1 [|c2 [|c3 [|c4 [|c5 [|c6 [|c7 [|c8 [|c9 body]]]]]]]]];
    try discriminate Hb.
  simpl in Hb.
  injection Hb as H1 H2 H3 H4 H5 H6 H7 H8.
  cbn [String.length Nat.leb strings.slice_to].
  rewrite (EqualFold_hex_cons b1 [b2; b3; b4]), (EqualFold_hex_cons b2 [b3; b4]),
    (EqualFold_hex_cons b3 [b4]), !andb_true_iff.
  rewrite (fold_byte_a9 b1 c1 c2 H1 H2), (fold_byte_05 b2 c3 c4 H3 H4),
    (fold_byte_9c b3 c5 c6 H5 H6), (fold_byte_bb b4 c7 c8 H7 H8).
  tauto.
Qed.

(** C7.  For the signature [a9059cbb], written in any mix of upper and
    lower case and with or without a leading [0x], the method-signature
    predicate holds of input data exactly when the data has at least four
    bytes and starts with [a9 05 9c bb]; and input data shorter than four
    bytes matches no signature at all. *)
Theorem transfer_signature_matches_its_four_bytes body signature :
  lowerASCII body = "a9059cbb"%string ->
  signature = body \/ signature = String "0" (String "x" body) ->
  (forall data,
     matchesMethodSignature data signature = true
     <-> (4 <= length data)%nat /\ take 4 data = [xa9; x05; x9c; xbb])
  /\ (forall data anySignature,
        (length data < 4)%nat -> matchesMethodSignature data anySignature = false).
Proof.
  intros Hb Hsig. split; [|intros; now apply mms_short].
  intros data.
  assert (Htrim : strings.TrimPrefix signature "0x" = body).
  { destruct (TrimPrefix_transfer_id body Hb) as [H1 H2].
    destruct Hsig; subst signature; assumption. }
  destruct data as [|b1 [|b2 [|b3 [|b4 rest]]]].
  1-4: rewrite mms_short by (simpl; lia);
       split; [discriminate | simpl; intros [Hl _]; lia].
  rewrite mms_four. cbv zeta. rewrite Htrim.
  rewrite (EqualFold_transfer_id body b1 b2 b3 b4 Hb).
  cbn [take length]. rewrite take_0. split.
  - intros (-> & -> & -> & ->). split; [lia | reflexivity].
  - intros [_ [= -> -> -> ->]]. repeat split.
Qed.

Lemma transfer_signature_witness :
  matchesMethodSignature [xa9; x05; x9c; xbb; x00; x01] "0xa9059cbb" = true
  /\ matchesMethodSignature [xa9; x05; x9c] "0xa9059cbb" = false.
Proof.
  destruct (transfer_signature_matches_its_four_bytes
              "a9059cbb" "0xa9059cbb" eq_refl (or_intror eq_refl)) as [Hm Hs].
  split.
  - apply Hm. split; [simpl; lia | reflexivity].
  - apply Hs. simpl; lia.
Defined.

Example mms_upper_case_no_prefix :
  matchesMethodSignature [xa9; x05; x9c; xbb] "A9059CBB" = true.
Proof. reflexivity. Qed.

Example mms_other_selector :
  matchesMethodSignature [xa9; x05; x9c; xbc; x00] "0xa9059cbb" = false.
Proof. reflexivity. Qed.

(** Only the first eight characters of the trimmed signature count. *)
Example mms_longer_signature :
  matchesMethodSignature [xa9; x05; x9c; xbb] "0xa9059cbb00000000" = true.
Proof. reflexivity. Qed.

(** C10.  A method signature that, once an optional [0x] is stripped,
    has fewer than eight characters matches no input data whatever: it is
    not compared as a shorter prefix.  A filter carrying such a
    (non-empty) signature therefore matches no transaction. *)
Theorem short_method_signature_matches_nothing signature :
  signature <> EmptyString ->
  (String.length (strings.TrimPrefix signature "0x") < 8)%nat ->
  (forall data, matchesMethodSignature data signature = false)
  /\ (forall f info, MethodSignature f = signature -> matchesFilter f info = false).
Proof.
  intros Hne Hlen.
  assert (Hall : forall data, matchesMethodSignature data signature = false)
    by (intros; now apply mms_short_signature).
  split; [exact Hall|].
  intros f info Hf.
  destruct (matchesFilter f info) eqn:Hm; [|reflexivity].
  apply matchesFilter_true_iff in Hm as (_ & _ & _ & _ & Hsig).
  rewrite Hf in Hsig. specialize (Hsig Hne). now rewrite Hall in Hsig.
Qed.

Lemma short_method_signature_witness :
  matchesMethodSignature [xa9; x05; x9c; xbb] "0xa9059c" = false
  /\ (forall info, matchesFilter Examples.shortSignatureFilter info = false).
Proof.
  assert (Hne : "0xa9059c"%string <> EmptyString) by discriminate.
  assert (Hlen : (String.length (strings.TrimPrefix "0xa9059c" "0x") < 8)%nat)
    by (vm_compute; lia).
  destruct (short_method_signature_matches_nothing "0xa9059c" Hne Hlen) as [Hd Hf].
  split; [apply Hd | intros info; now apply Hf].
Defined.

(** *** Transactions without a recovered sender *)

(** C2, as the code has it.  When the sender of a transaction could not
    be recovered, [From] keeps the zero address.  Against a filter that
    asks for a sender other than the zero address the transaction does
    not match and no handler is invoked; against a filter that asks for
    the zero address the sender criterion is met and the outcome is that
    of the remaining criteria. *)
Theorem unrecovered_sender_only_matches_zero_address
  {W} (p : TransactionProcessor W) f a tx blockHash blockNumber :
  filter p = Some f ->
  FromAddress f = Some a ->
  tx_Sender tx = None ->
  (a <> zeroAddress ->
     matchesFilter f (newInfo tx blockHash blockNumber) = false
     /\ handlerCalls p tx blockHash blockNumber = []
     /\ forall w, onNewTransaction p tx blockHash blockNumber w = w)
  /\ (a = zeroAddress ->
        matchesFilter f (newInfo tx blockHash blockNumber)
        = matchesFilter (withoutSender f) (newInfo tx blockHash blockNumber)).
Proof.
  intros Hp Hf Hs. split.
  - intros Ha.
    assert (Hm : matchesFilter f (newInfo tx blockHash blockNumber) = false).
    { unfold matchesFilter. rewrite Hf. cbn [From newInfo]. rewrite Hs.
      destruct (N.eqb_spec zeroAddress a); [congruence | reflexivity]. }
    assert (Hc : handlerCalls p tx blockHash blockNumber = []).
    { unfold handlerCalls, filteredOut. now rewrite Hp, Hm. }
    split; [exact Hm|]. split; [exact Hc|].
    intros w. unfold onNewTransaction. now rewrite Hc.
  - intros ->. unfold matchesFilter, withoutSender. rewrite Hf.
    cbn [From newInfo FromAddress ToAddress MinValue OnlyContractTxs MethodSignature].
    now rewrite Hs.
Qed.

Lemma unrecovered_sender_witness :
  matchesFilter (withoutSender Examples.zeroSenderFilter)
    (newInfo Examples.txNoSender 9 1) = true
  /\ handlerCalls (W := list TransactionInfo)
       (WithFilter
          {| FromAddress := Some 77; ToAddress := None; MinValue := None;
             OnlyContractTxs := false; MethodSignature := EmptyString |}
          (OnTransaction (fun info seen => seen ++ [info]) NewTransactionProcessor))
       Examples.txNoSender 9 1 = [].
Proof.
  split.
  - reflexivity.
  - refine (proj1 (proj2 (proj1
      (unrecovered_sender_only_matches_zero_address
         (WithFilter
            {| FromAddress := Some 77; ToAddress := None; MinValue := None;
               OnlyContractTxs := false; MethodSignature := EmptyString |}
            (OnTransaction (fun info seen => seen ++ [info]) NewTransactionProcessor))
         _ 77 Examples.txNoSender 9 1 eq_refl eq_refl eq_refl) _))).
    discriminate.
Defined.

(** C2 as stated fails: the sender of [txNoSender] is not recovered, the
    filter asks for the zero address, and the transaction matches and
    reaches the handler. *)
Lemma unrecovered_sender_matches_zero_address_filter :
  tx_Sender Examples.txNoSender = None
  /\ FromAddress Examples.zeroSenderFilter = Some zeroAddress
  /\ filter Examples.recorder = Some Examples.zeroSenderFilter
  /\ matchesFilter Examples.zeroSenderFilter (newInfo Examples.txNoSender 9 1) = true
  /\ onNewTransaction Examples.recorder Examples.txNoSender 9 1 []
     = [newInfo Examples.txNoSender 9 1].
Proof. repeat split. Qed.

(** *** Any selector *)

Lemma nibble_forall (P : N -> bool) :
  forallb P (map N.of_nat (seq 0 16)) = true -> forall n, n < 16 -> P n = true.
Proof.
  intros Hall n Hn. rewrite forallb_forall in Hall. apply Hall.
  apply in_map_iff. exists (N.to_nat n). split; [lia | apply in_seq; lia].
Qed.

Lemma ascii_forall (P : ascii -> bool) :
  forallb P (map ascii_of_nat (seq 0 256)) = true -> forall c, P c = true.
Proof.
  intros Hall c. rewrite forallb_forall in Hall. apply Hall.
  apply in_map_iff. exists (nat_of_ascii c).
  split; [apply ascii_nat_embedding | apply in_seq].
  pose proof (nat_ascii_bounded c). lia.
Qed.

Lemma byte_nibbles v :
  N.shiftr (Byte.to_N v) 4 < 16 /\ N.land (Byte.to_N v) 15 < 16.
Proof. destruct v; vm_compute; split; reflexivity. Qed.

(** Against a hexadecimal digit, the comparison of [EqualFold] is
    equality with the lower-cased character. *)
Lemma hexchar_fold n c :
  n < 16 ->
  (if 128 <=? N.lor (N_of_ascii (hexchar n)) (N_of_ascii c) then false
   else strings.fold_eq_ascii (N_of_ascii (hexchar n)) (N_of_ascii c))
  = Ascii.eqb (hexchar n) (lowerChar c).
Proof.
  intros Hn.
  pose (P := fun n => forallb (fun c =>
    Bool.eqb
      (if 128 <=? N.lor (N_of_ascii (hexchar n)) (N_of_ascii c) then false
       else strings.fold_eq_ascii (N_of_ascii (hexchar n)) (N_of_ascii c))
      (Ascii.eqb (hexchar n) (lowerChar c))) (map ascii_of_nat (seq 0 256))).
  assert (Hall : forallb P (map N.of_nat (seq 0 16)) = true)
    by (vm_compute; reflexivity).
  pose proof (nibble_forall P Hall n Hn) as Hc. unfold P in Hc.
  pose proof (ascii_forall _ Hc c) as Hb. cbv beta in Hb.
  now apply Bool.eqb_prop in Hb.
Qed.

Lemma hexchar_not_x n : n < 16 -> lowerChar "x" <> hexchar n.
Proof.
  intros Hn He.
  assert (Hall : forallb (fun n => negb (Ascii.eqb (lowerChar "x") (hexchar n)))
                   (map N.of_nat (seq 0 16)) = true) by (vm_compute; reflexivity).
  pose proof (nibble_forall _ Hall n Hn) as Hc. cbv beta in Hc.
  rewrite He, Ascii.eqb_refl in Hc. discriminate.
Qed.

Lemma EqualFold_hexchar n c s t :
  n < 16 ->
  strings.EqualFold (String (hexchar n) s) (String c t)
  = Ascii.eqb (hexchar n) (lowerChar c) && strings.EqualFold s t.
Proof.
  intros Hn. rewrite <- (hexchar_fold n c Hn). cbn [strings.EqualFold].
  destruct (128 <=? _); reflexivity.
Qed.

Lemma EqualFold_hex d t :
  strings.EqualFold (Bytes2Hex d) t = String.eqb (Bytes2Hex d) (lowerASCII t).
Proof.
  revert t. induction d as [|v d IH]; intros t.
  - destruct t; reflexivity.
  - destruct (byte_nibbles v) as [Hhi Hlo].
    destruct t as [|c1 [|c2 t]]; cbn [Bytes2Hex lowerASCII String.eqb].
    + reflexivity.
    + rewrite (EqualFold_hexchar _ c1 _ _ Hhi). cbn [strings.EqualFold].
      now rewrite andb_false_r, Tauto.if_same.
    + rewrite (EqualFold_hexchar _ c1 _ _ Hhi), (EqualFold_hexchar _ c2 _ _ Hlo), IH.
      destruct (Ascii.eqb _ (lowerChar c1)), (Ascii.eqb _ (lowerChar c2)); reflexivity.
Qed.

Lemma hexpair_inj v w : Bytes2Hex [v] = Bytes2Hex [w] -> v = w.
Proof.
  intros He.
  pose (hexpair := fun n : N =>
    String (hexchar (N.shiftr n 4)) (String (hexchar (N.land n 15)) EmptyString)).
  assert (Hall : forallb (fun n => forallb (fun m =>
                    implb (String.eqb (hexpair n) (hexpair m)) (n =? m))
                    (map N.of_nat (seq 0 256))) (map N.of_nat (seq 0 256)) = true)
    by (vm_compute; reflexivity).
  rewrite forallb_forall in Hall.
  assert (Hin : forall b, In (Byte.to_N b) (map N.of_nat (seq 0 256))).
  { intros b. apply in_map_iff. exists (N.to_nat (Byte.to_N b)).
    pose proof (Byte.to_N_bounded b). split; [lia | apply in_seq; lia]. }
  pose proof (Hall _ (Hin v)) as Hv. rewrite forallb_forall in Hv.
  pose proof (Hv _ (Hin w)) as Hvw. cbv beta in Hvw.
  change (hexpair (Byte.to_N v)) with (Bytes2Hex [v]) in Hvw.
  change (hexpair (Byte.to_N w)) with (Bytes2Hex [w]) in Hvw.
  rewrite He, String.eqb_refl in Hvw. cbn [implb] in Hvw.
  apply N.eqb_eq in Hvw.
  pose proof (Byte.of_to_N v) as H1. pose proof (Byte.of_to_N w) as H2.
  rewrite Hvw in H1. congruence.
Qed.

Lemma Bytes2Hex_inj d d' : Bytes2Hex d = Bytes2Hex d' -> d = d'.
Proof.
  revert d'. induction d as [|v d IH]; intros [|w d'] He; try discriminate He.
  - reflexivity.
  - cbn [Bytes2Hex] in He. injection He as H1 H2 H3.
    f_equal; [|now apply IH].
    apply hexpair_inj. cbn [Bytes2Hex]. now rewrite H1, H2.
Qed.

Lemma lowerASCII_length s : String.length (lowerASCII s) = String.length s.
Proof. induction s as [|c s IH]; [reflexivity|]. cbn. now rewrite IH. Qed.

Lemma Bytes2Hex_length d : String.length (Bytes2Hex d) = (2 * length d)%nat.
Proof. induction d as [|v d IH]; [reflexivity|]. cbn [Bytes2Hex String.length length]. lia. Qed.

Lemma slice_to_append body extra :
  strings.slice_to (String.length body) (String.append body extra) = body.
Proof.
  induction body as [|c body IH]; [now destruct extra|].
  change (String.append (String c body) extra)
    with (String c (String.append body extra)).
  cbn [String.length strings.slice_to]. now rewrite IH.
Qed.

Lemma append_length a b :
  String.length (String.append a b) = (String.length a + String.length b)%nat.
Proof.
  induction a as [|c a IH]; [reflexivity|].
  change (String.append (String c a) b) with (String c (String.append a b)).
  cbn [String.length Nat.add]. now rewrite IH.
Qed.

(** X1.  Whatever the four bytes [sel]: a signature that spells them in
    hexadecimal, in any letter case, with or without a leading [0x], and
    followed by anything, matches input data exactly when the data has
    at least four bytes and begins with [sel]. *)
Theorem method_signature_matches_its_selector sel body extra signature data :
  length sel = 4%nat ->
  lowerASCII body = Bytes2Hex sel ->
  signature = String.append body extra
  \/ signature = String "0" (String "x" (String.append body extra)) ->
  matchesMethodSignature data signature = true
  <-> (4 <= length data)%nat /\ take 4 data = sel.
Proof.
  intros Hsel Hbody Hsig.
  assert (Hlen : String.length body = 8%nat).
  { rewrite <- lowerASCII_length, Hbody, Bytes2Hex_length. lia. }
  assert (Htrim : strings.TrimPrefix signature "0x" = String.append body extra).
  { destruct Hsig as [-> | ->]; [|reflexivity].
    destruct sel as [|v sel]; [discriminate Hsel|].
    destruct body as [|c1 [|c2 body]]; try discriminate Hlen.
    cbn [lowerASCII Bytes2Hex] in Hbody. injection Hbody as _ H2 _.
    change (String.append (String c1 (String c2 body)) extra)
      with (String c1 (String c2 (String.append body extra))).
    unfold strings.TrimPrefix. cbn [strings.CutPrefix].
    destruct (Ascii.eqb c1 "0"); [|reflexivity].
    destruct (Ascii.eqb_spec c2 "x") as [->|]; [|reflexivity].
    exfalso. exact (hexchar_not_x _ (proj2 (byte_nibbles v)) H2). }
  unfold matchesMethodSignature. rewrite Htrim, append_length.
  destruct (Nat.ltb_spec (length data) 4) as [Hshort|Hlong].
  { split; [discriminate | intros [? _]; lia]. }
  destruct (Nat.leb_spec 8 (String.length body + String.length extra)); [|lia].
  replace (strings.slice_to 8 (String.append body extra)) with body
    by (rewrite <- Hlen; symmetry; apply slice_to_append).
  rewrite EqualFold_hex, Hbody, String.eqb_eq. split.
  - intros He. split; [exact Hlong | now apply Bytes2Hex_inj].
  - intros [_ ->]. reflexivity.
Qed.

Lemma method_signature_selector_witness :
  matchesMethodSignature [x09; x5e; xa7; xb3; x00] "0x095EA7b3 approve" = true.
Proof.
  refine (proj2 (method_signature_matches_its_selector
                   [x09; x5e; xa7; xb3] "095EA7b3" " approve" _ _
                   eq_refl eq_refl (or_intror eq_refl)) _).
  split; [simpl; lia | reflexivity].
Defined.

(** *** Contract calls and contract creations *)

(** X2.  A filter that asks for contract calls only matches a
    transaction only if the transaction has a recipient and carries input
    data: contract creations and plain transfers are rejected. *)
Theorem contract_only_filter_needs_recipient_and_data f tx blockHash blockNumber :
  OnlyContractTxs f = true ->
  matchesFilter f (newInfo tx blockHash blockNumber) = true ->
  (exists to, tx_To tx = Some to) /\ tx_Data tx <> [].
Proof.
  intros Hflag Hm.
  apply matchesFilter_true_iff in Hm as (_ & _ & _ & Hcall & _).
  specialize (Hcall Hflag). cbn [IsContractCall newInfo] in Hcall.
  apply andb_true_iff in Hcall as [Hdata Hto]. split.
  - destruct (tx_To tx) as [to|]; [now exists to | discriminate].
  - intros Hnil. rewrite Hnil in Hdata. discriminate.
Qed.

Lemma contract_only_filter_witness :
  (exists to, tx_To Examples.txCall = Some to) /\ tx_Data Examples.txCall <> [].
Proof.
  apply (contract_only_filter_needs_recipient_and_data
           Examples.contractOnlyFilter Examples.txCall 9 1); reflexivity.
Defined.

(** X3.  A contract creation has no recipient and its [To] keeps the
    zero address: a filter that asks for a recipient other than the zero
    address never matches it, and the filter that asks for the zero
    address as recipient and for nothing else matches every contract
    creation. *)
Theorem contract_creation_against_recipient_filter f a tx blockHash blockNumber :
  tx_To tx = None ->
  ToAddress f = Some a ->
  (a <> zeroAddress -> matchesFilter f (newInfo tx blockHash blockNumber) = false)
  /\ matchesFilter (Examples.recipientFilter zeroAddress)
       (newInfo tx blockHash blockNumber) = true.
Proof.
  intros Hto Hf. split.
  - intros Ha. destruct (matchesFilter f _) eqn:Hm; [|reflexivity].
    apply matchesFilter_true_iff in Hm as (_ & Hr & _).
    rewrite Hf in Hr. cbn [To newInfo] in Hr. rewrite Hto in Hr. congruence.
  - unfold matchesFilter, Examples.recipientFilter.
    cbn [FromAddress ToAddress MinValue OnlyContractTxs MethodSignature To newInfo].
    rewrite Hto. reflexivity.
Qed.

Lemma contract_creation_witness :
  matchesFilter (Examples.recipientFilter 5) (newInfo Examples.txCreate 9 1) = false.
Proof.
  refine (proj1 (contract_creation_against_recipient_filter
                   (Examples.recipientFilter 5) 5 Examples.txCreate 9 1
                   eq_refl eq_refl) _).
  discriminate.
Defined.

(** *** Handlers *)

Lemma handlerCalls_OnTransaction {W} (p : TransactionProcessor W) handler tx bh bn :
  handlerCalls (OnTransaction handler p) tx bh bn
  = if filteredOut p (newInfo tx bh bn) then []
    else handlerCalls p tx bh bn ++ [handler (newInfo tx bh bn)].
Proof.
  unfold handlerCalls, filteredOut, OnTransaction. cbn [filter handlers].
  destruct (match filter p with Some f => _ | None => false end); [reflexivity|].
  now rewrite map_app.
Qed.

(** X5.  Handlers run in the order of their registration, each of them
    once and on the same [TransactionInfo]: a handler registered with
    [OnTransaction] runs after all the earlier ones, on the state they
    leave; when the filter rejects the transaction none of them runs.
    Registering a handler does not change the filter. *)
Theorem handlers_run_in_registration_order {W} (p : TransactionProcessor W)
  (handler : TransactionHandlerFunc W) tx blockHash blockNumber w :
  onNewTransaction (OnTransaction handler p) tx blockHash blockNumber w
  = (if filteredOut p (newInfo tx blockHash blockNumber) then w
     else handler (newInfo tx blockHash blockNumber)
            (onNewTransaction p tx blockHash blockNumber w))
  /\ filter (OnTransaction handler p) = filter p.
Proof.
  split; [|reflexivity].
  unfold onNewTransaction. rewrite handlerCalls_OnTransaction.
  destruct (filteredOut p _); [reflexivity|].
  now rewrite foldl_app.
Qed.

End TxProps.

(** ** The listener *)

Module ListenerProps.
Import common Listener Spec.

Lemma emitted_app a b : emitted (a ++ b) = emitted a ++ emitted b.
Proof. unfold emitted. apply omap_app. Qed.

Lemma emitted_processBlock block : emitted (processBlock block) = blockEvents block.
Proof.
  unfold processBlock, blockEvents, emitted. cbn [omap list_omap]. f_equal.
  induction (blk_Transactions block) as [|tx txs IH]; [reflexivity|].
  cbn. now rewrite IH.
Qed.

Lemma blockLoop_fetched feed :
  blockLoop (fetchedFeed feed) = (concat (map (fun hb => processBlock hb.2) feed), true).
Proof.
  induction feed as [|[header block] feed IH]; [reflexivity|].
  cbn [fetchedFeed map blockLoop fst snd concat] in *.
  unfold fetchedFeed in IH. now rewrite IH.
Qed.

Lemma countOfType_app ty a b :
  countOfType ty (a ++ b) = (countOfType ty a + countOfType ty b)%nat.
Proof. unfold countOfType. now rewrite List.filter_app, length_app. Qed.

Lemma countOfType_blockEvents block :
  countOfType EventTypeNewBlock (blockEvents block) = 1%nat
  /\ countOfType EventTypeNewTransaction (blockEvents block)
     = length (blk_Transactions block).
Proof.
  unfold blockEvents, countOfType. cbn [List.filter blockEvent ev_Type].
  change (String.eqb EventTypeNewBlock EventTypeNewBlock) with true.
  change (String.eqb EventTypeNewBlock EventTypeNewTransaction) with false.
  cbn [length].
  induction (blk_Transactions block) as [|tx txs [IH1 IH2]]; [split; reflexivity|].
  cbn [map List.filter txEvent ev_Type].
  change (String.eqb EventTypeNewTransaction EventTypeNewBlock) with false.
  change (String.eqb EventTypeNewTransaction EventTypeNewTransaction) with true.
  cbn [length]. split; [exact IH1 | now rewrite IH2].
Qed.

(** C5.  When every header of the feed is answered with its block, the
    goroutine hands to [notifyHandlers] exactly the events of the first
    block, then those of the second, and so on; the events of a block are
    its [NewBlock] event followed by one [NewTransaction] event per
    transaction in index order.  So there are as many [NewBlock] events
    as blocks and as many [NewTransaction] events as transactions, and
    the goroutine is still in its loop at the end. *)
Theorem listener_preserves_feed_order feed :
  emitted (blockLoop (fetchedFeed feed)).1 = concat (map (fun hb => blockEvents hb.2) feed)
  /\ (blockLoop (fetchedFeed feed)).2 = true
  /\ countOfType EventTypeNewBlock (emitted (blockLoop (fetchedFeed feed)).1)
     = length feed
  /\ countOfType EventTypeNewTransaction (emitted (blockLoop (fetchedFeed feed)).1)
     = totalTransactions feed.
Proof.
  rewrite blockLoop_fetched. cbn [fst snd].
  assert (He : emitted (concat (map (fun hb => processBlock hb.2) feed))
               = concat (map (fun hb : Header * Block => blockEvents hb.2) feed)).
  { induction feed as [|hb feed IH]; [reflexivity|].
    cbn [map concat]. now rewrite emitted_app, emitted_processBlock, IH. }
  rewrite He. split; [reflexivity|]. split; [reflexivity|].
  unfold totalTransactions.
  induction feed as [|hb feed IH]; [split; reflexivity|].
  cbn [map concat length list_sum]. rewrite !countOfType_app.
  destruct (countOfType_blockEvents hb.2) as [-> ->].
  destruct IH as [-> ->].
  - clear. induction feed as [|hb' feed IH]; [reflexivity|].
    cbn [map concat]. now rewrite emitted_app, emitted_processBlock, IH.
  - split; reflexivity.
Qed.

Lemma blockLoop_skip pre header err post :
  emitted (blockLoop (pre ++ RecvHeader header (inr err) :: post)).1
  = emitted (blockLoop (pre ++ post)).1
  /\ (blockLoop (pre ++ RecvHeader header (inr err) :: post)).2
     = (blockLoop (pre ++ post)).2.
Proof.
  induction pre as [|[e|h [block|e]|] pre [IH1 IH2]]; cbn [app blockLoop].
  - destruct (blockLoop post) as [acts running]. split; reflexivity.
  - split; reflexivity.
  - destruct (blockLoop (pre ++ _ :: post)) as [acts running],
      (blockLoop (pre ++ post)) as [acts' running'].
    cbn [fst snd] in *. rewrite !emitted_app, IH1. now subst.
  - destruct (blockLoop (pre ++ _ :: post)) as [acts running],
      (blockLoop (pre ++ post)) as [acts' running'].
    cbn [fst snd] in *. split; [exact IH1 | exact IH2].
  - split; reflexivity.
Qed.

(** C8.  A header whose block cannot be fetched produces a log line and
    no event, and leaves the goroutine in its loop; whatever was received
    before and whatever is received after, the events emitted and the
    state of the loop are those of the run without that header. *)
Theorem failed_fetch_skips_only_its_block header err :
  blockLoop [RecvHeader header (inr err)] = ([Printf (log.GetBlockError err)], true)
  /\ forall pre post,
       emitted (blockLoop (pre ++ RecvHeader header (inr err) :: post)).1
       = emitted (blockLoop (pre ++ post)).1
       /\ (blockLoop (pre ++ RecvHeader header (inr err) :: post)).2
          = (blockLoop (pre ++ post)).2.
Proof.
  split; [reflexivity|]. intros pre post. apply blockLoop_skip.
Qed.

Example blockLoop_run :
  blockLoop [RecvHeader {| hdr_Hash := 9 |} (inl Examples.smallBlock);
             RecvHeader {| hdr_Hash := 10 |} (inr "not found"%string);
             CtxDone;
             RecvHeader {| hdr_Hash := 11 |} (inl Examples.smallBlock)]
  = ([Notify (blockEvent Examples.smallBlock);
      Notify (txEvent Examples.smallBlock Examples.txNoSender);
      Printf (log.GetBlockError "not found")], false).
Proof. reflexivity. Qed.

(** *** Handler registry *)

(** X6.  [Subscribe] appends: an event of the subscribed type starts
    the goroutines of the handlers registered before, in their order,
    and then the one of the new handler; events of another type start
    the same goroutines as before; with nothing registered for its type
    an event starts none. *)
Theorem notifyHandlers_after_Subscribe {H : Type} (eventType : EventType)
  (handler : H) (handlers : gmap string (list H)) (event : Event) :
  notifyHandlers (Subscribe eventType handler handlers) event
  = (if String.eqb (ev_Type event) eventType
     then notifyHandlers handlers event ++ [(handler, event)]
     else notifyHandlers handlers event)
  /\ (handlers !! ev_Type event = None -> notifyHandlers handlers event = []).
Proof.
  split.
  - unfold notifyHandlers, Subscribe.
    destruct (String.eqb_spec (ev_Type event) eventType) as [->|Hne].
    + rewrite lookup_insert_eq. cbn [from_option id]. now rewrite map_app.
    + rewrite lookup_insert_ne by congruence. reflexivity.
  - intros Hnone. unfold notifyHandlers. now rewrite Hnone.
Qed.

Lemma notifyHandlers_witness :
  notifyHandlers (H := nat) ∅ (blockEvent Examples.smallBlock) = [].
Proof.
  apply (proj2 (notifyHandlers_after_Subscribe (H := nat) EventTypeNewBlock 0%nat ∅
                  (blockEvent Examples.smallBlock))).
  apply lookup_empty.
Defined.

(** *** The end of the block loop *)

Lemma blockLoop_end pre t post :
  endsLoop t = true ->
  blockLoop (pre ++ t :: post) = blockLoop (pre ++ [t])
  /\ (blockLoop (pre ++ t :: post)).2 = false.
Proof.
  intros Ht.
  induction pre as [|[e|h [block|e]|] pre [IH1 IH2]]; cbn [app blockLoop].
  - destruct t as [e| |]; try discriminate Ht; split; reflexivity.
  - split; reflexivity.
  - rewrite IH1. destruct (blockLoop (pre ++ [t])) as [acts running] eqn:Hl.
    rewrite IH1 in IH2. split; [reflexivity | exact IH2].
  - rewrite IH1. destruct (blockLoop (pre ++ [t])) as [acts running] eqn:Hl.
    rewrite IH1 in IH2. split; [reflexivity | exact IH2].
  - split; reflexivity.
Qed.

Lemma blockLoop_running inputs :
  (blockLoop inputs).2 = forallb (fun i => negb (endsLoop i)) inputs.
Proof.
  induction inputs as [|[e|h [block|e]|] inputs IH]; cbn [blockLoop forallb endsLoop negb andb];
    try reflexivity; destruct (blockLoop inputs) as [acts running]; exact IH.
Qed.

Lemma blockLoop_provenance inputs e :
  In e (emitted (blockLoop inputs).1) ->
  exists header block,
    In (RecvHeader header (inl block)) inputs /\ In e (blockEvents block).
Proof.
  induction inputs as [|[err|h [block|err]|] inputs IH]; cbn [blockLoop].
  - intros [].
  - intros [].
  - destruct (blockLoop inputs) as [acts running]. cbn [fst] in *.
    rewrite emitted_app, emitted_processBlock. intros Hin.
    apply in_app_or in Hin as [Hin|Hin].
    + exists h, block. split; [now left | exact Hin].
    + destruct (IH Hin) as (h' & b' & H1 & H2). exists h', b'. split; [now right | exact H2].
  - destruct (blockLoop inputs) as [acts running]. cbn [fst] in *.
    intros Hin. destruct (IH Hin) as (h' & b' & H1 & H2).
    exists h', b'. split; [now right | exact H2].
  - intros [].
Qed.

(** X7.  The goroutine of [subscribeToNewBlocks] ends at the first
    subscription error or cancellation it receives: what arrives after
    it changes nothing.  For any inputs, the goroutine is still in its
    loop exactly when none of them ends it, and every event it emits is
    an event of a block it fetched. *)
Theorem block_loop_ends_once pre t post :
  endsLoop t = true ->
  blockLoop (pre ++ t :: post) = blockLoop (pre ++ [t])
  /\ (blockLoop (pre ++ t :: post)).2 = false
  /\ (forall inputs,
        (blockLoop inputs).2 = forallb (fun i => negb (endsLoop i)) inputs)
  /\ (forall inputs e,
        In e (emitted (blockLoop inputs).1) ->
        exists header block,
          In (RecvHeader header (inl block)) inputs /\ In e (blockEvents block)).
Proof.
  intros Ht. destruct (blockLoop_end pre t post Ht) as [H1 H2].
  split; [exact H1|]. split; [exact H2|].
  split; [exact blockLoop_running | exact blockLoop_provenance].
Qed.

Lemma block_loop_ends_once_witness :
  blockLoop ([RecvHeader {| hdr_Hash := 9 |} (inl Examples.smallBlock)]
             ++ CtxDone :: [RecvHeader {| hdr_Hash := 9 |} (inl Examples.smallBlock)])
  = blockLoop ([RecvHeader {| hdr_Hash := 9 |} (inl Examples.smallBlock)] ++ [CtxDone]).
Proof.
  apply (proj1 (block_loop_ends_once
                  [RecvHeader {| hdr_Hash := 9 |} (inl Examples.smallBlock)] CtxDone
                  [RecvHeader {| hdr_Hash := 9 |} (inl Examples.smallBlock)] eq_refl)).
Defined.

(** *** Contract logs *)

Lemma contractLoop_logs logs rest :
  contractLoop (map RecvLog logs ++ rest)
  = (map (fun vLog => CNotify (logEvent vLog)) logs ++ (contractLoop rest).1,
     (contractLoop rest).2).
Proof.
  induction logs as [|vLog logs IH]; cbn [map app contractLoop].
  - now destruct (contractLoop rest).
  - rewrite IH. reflexivity.
Qed.

Lemma contractEmitted_notifications logs :
  contractEmitted (map (fun vLog => CNotify (logEvent vLog)) logs) = map logEvent logs.
Proof.
  induction logs as [|vLog logs IH]; [reflexivity|].
  cbn. f_equal. exact IH.
Qed.

(** X8.  The goroutine of [SubscribeToContractEvents] emits one
    [contract_event] per log record it receives, in the order received,
    carrying the block hash, block number and transaction hash of the
    record; it goes on as long as logs arrive, and after a subscription
    error or a cancellation it emits nothing more. *)
Theorem contract_loop_one_event_per_log logs :
  contractEmitted (contractLoop (map RecvLog logs)).1 = map logEvent logs
  /\ (contractLoop (map RecvLog logs)).2 = true
  /\ (forall err post,
        contractEmitted (contractLoop (map RecvLog logs ++ LogSubErr err :: post)).1
        = map logEvent logs
        /\ (contractLoop (map RecvLog logs ++ LogSubErr err :: post)).2 = false)
  /\ (forall post,
        contractEmitted (contractLoop (map RecvLog logs ++ LogCtxDone :: post)).1
        = map logEvent logs
        /\ (contractLoop (map RecvLog logs ++ LogCtxDone :: post)).2 = false)
  /\ Forall (fun e => ev_Type e = EventTypeContractEvent) (map logEvent logs)
  /\ map (fun e => (ev_BlockHash e, ev_BlockNum e, ev_TxHash e)) (map logEvent logs)
     = map (fun vLog => (log_BlockHash vLog, log_BlockNumber vLog, log_TxHash vLog)) logs.
Proof.
  assert (Happ : forall l, contractEmitted
                   (map (fun vLog => CNotify (logEvent vLog)) logs ++ l)
                 = map logEvent logs ++ contractEmitted l).
  { intros l. unfold contractEmitted at 1. rewrite omap_app.
    fold (contractEmitted (map (fun vLog => CNotify (logEvent vLog)) logs)).
    now rewrite contractEmitted_notifications. }
  split; [|split; [|split; [|split; [|split]]]].
  - rewrite <- (app_nil_r (map RecvLog logs)), contractLoop_logs. cbn [fst contractLoop].
    now rewrite Happ, app_nil_r.
  - rewrite <- (app_nil_r (map RecvLog logs)), contractLoop_logs. reflexivity.
  - intros err post. rewrite contractLoop_logs. cbn [fst snd contractLoop].
    rewrite Happ. cbn. now rewrite app_nil_r.
  - intros post. rewrite contractLoop_logs. cbn [fst snd contractLoop].
    rewrite Happ. cbn. now rewrite app_nil_r.
  - apply Forall_forall. intros e Hin. apply list_elem_of_In in Hin.
    apply in_map_iff in Hin as (vLog & <- & _). reflexivity.
  - rewrite map_map. reflexivity.
Qed.

(** *** Subscriptions *)

(** X9.  After any series of subscription attempts, [Stop] unsubscribes
    exactly the subscriptions that were opened, each once and in the
    order they were opened; an attempt that failed left nothing to
    unsubscribe.  The listener is cancelled afterwards, and a second
    [Stop] finds the same subscriptions. *)
Theorem Stop_unsubscribes_what_was_opened (attempts : list (nat + log.error)) :
  (Stop (foldl (fun l opened => (recordSubscription opened l).1)
           {| subscriptions := []; ctx_cancelled := false |} attempts)).2
  = omap (fun opened => match opened with inl sub => Some sub | inr _ => None end)
      attempts
  /\ ctx_cancelled
       (Stop (foldl (fun l opened => (recordSubscription opened l).1)
                {| subscriptions := []; ctx_cancelled := false |} attempts)).1 = true
  /\ (forall l, Stop (Stop l).1 = Stop l).
Proof.
  assert (Hgen : forall l,
            subscriptions (foldl (fun l opened => (recordSubscription opened l).1) l attempts)
            = subscriptions l
              ++ omap (fun opened => match opened with inl sub => Some sub | inr _ => None end)
                   attempts).
  { induction attempts as [|[sub|err] attempts IH]; intros l; cbn [foldl].
    - now rewrite app_nil_r.
    - rewrite IH. cbn. now rewrite <- app_assoc.
    - rewrite IH. reflexivity. }
  split; [|split].
  - cbn [Stop snd]. now rewrite Hgen.
  - reflexivity.
  - intros l. reflexivity.
Qed.

End ListenerProps.

(** ** One client: the outbound queue *)

Module WSProps.
Import WS.

Lemma Send_no_room pick_send c message :
  (send_cap c <= length (send c))%nat ->
  Send pick_send c message
  = if cancelled c then (c, Some errClosed) else (Close c, Some errBufferFull).
Proof.
  intros Hfull. unfold Send.
  destruct (Nat.ltb_spec (length (send c)) (send_cap c)); [lia|].
  destruct (cancelled c); reflexivity.
Qed.

Lemma Send_open_room pick_send c message :
  (length (send c) < send_cap c)%nat -> cancelled c = false ->
  Send pick_send c message = (enqueue message c, None).
Proof.
  intros Hroom Hopen. unfold Send. rewrite Hopen.
  destruct (Nat.ltb_spec (length (send c)) (send_cap c)); [reflexivity | lia].
Qed.

Lemma Send_bounded pick_send c message :
  (length (send c) <= send_cap c)%nat ->
  (length (send (Send pick_send c message).1) <= send_cap (Send pick_send c message).1)%nat
  /\ send_cap (Send pick_send c message).1 = send_cap c
  /\ ID (Send pick_send c message).1 = ID c.
Proof.
  intros Hle. unfold Send.
  destruct (Nat.ltb_spec (length (send c)) (send_cap c)), (cancelled c), pick_send;
    cbn [fst enqueue Close send send_cap ID]; rewrite ?length_app; cbn [length];
    repeat split; lia.
Qed.

Lemma handleMessage_keeps_queue decoded c :
  send (handleMessage decoded c).1 = send c
  /\ send_cap (handleMessage decoded c).1 = send_cap c
  /\ ID (handleMessage decoded c).1 = ID c
  /\ cancelled (handleMessage decoded c).1 = cancelled c
  /\ conn_closed (handleMessage decoded c).1 = conn_closed c.
Proof.
  unfold handleMessage.
  destruct decoded as [msg|]; [|repeat split].
  destruct (asString (msg !! "type"%string)) as [msgType|]; [|repeat split].
  destruct (String.eqb msgType "subscribe").
  - destruct (asString (msg !! "contract"%string)); repeat split.
  - destruct (String.eqb msgType "filter"); [|repeat split].
    destruct (asArray (msg !! "eventTypes"%string)),
      (asArray (msg !! "contracts"%string)); repeat split.
Qed.

Lemma step_bounded c c' :
  step c c' ->
  (length (send c) <= send_cap c)%nat ->
  (length (send c') <= send_cap c')%nat /\ send_cap c' = send_cap c /\ ID c' = ID c.
Proof.
  intros [pick_send c0 message | c0 message c1 Hrecv | c0 | decoded c0] Hle.
  - now apply Send_bounded.
  - unfold receive in Hrecv. destruct (send c0) as [|m rest] eqn:Hs; [discriminate|].
    injection Hrecv as _ <-. cbn [send send_cap ID]. cbn [length] in Hle.
    repeat split. lia.
  - cbn [Close send send_cap ID]. repeat split. lia.
  - destruct (handleMessage_keeps_queue decoded c0) as (-> & -> & -> & _).
    repeat split. lia.
Qed.

Lemma reachable_bounded id c :
  reachable id c ->
  (length (send c) <= send_cap c)%nat /\ send_cap c = 256%nat /\ ID c = id.
Proof.
  induction 1 as [|c c' _ (IHle & IHcap & IHid) Hstep].
  - cbn. repeat split; lia.
  - destruct (step_bounded c c' Hstep IHle) as (Hle & Hcap & Hid).
    repeat split; congruence.
Qed.

(** C6, as the code has it.  The queue of a client never holds more
    than its capacity, which is 256.  A [Send] on a saturated queue
    returns an error at once and leaves the queue as it was; on a client
    that is not yet cancelled the error says that the buffer is full and
    the client is closed; on a client already cancelled the error says
    that the connection is closed. *)
Theorem saturated_send_fails_without_blocking id c :
  reachable id c ->
  (length (send c) <= send_cap c)%nat
  /\ send_cap c = 256%nat
  /\ forall pick_send message,
       length (send c) = send_cap c ->
       send (Send pick_send c message).1 = send c
       /\ cancelled (Send pick_send c message).1 = true
       /\ (cancelled c = false ->
             Send pick_send c message = (Close c, Some errBufferFull))
       /\ (cancelled c = true ->
             Send pick_send c message = (c, Some errClosed)).
Proof.
  intros Hr. destruct (reachable_bounded id c Hr) as (Hle & Hcap & _).
  split; [exact Hle|]. split; [exact Hcap|].
  intros pick_send message Hfull.
  rewrite (Send_no_room pick_send c message) by lia.
  destruct (cancelled c) eqn:Hc; cbn [fst Close send cancelled];
    repeat split; try assumption; intros; congruence.
Qed.

Lemma filled_reachable n : (n <= 256)%nat -> reachable "slow" (Examples.filled n).
Proof.
  induction n as [|n IH]; intros Hn.
  - apply reachable_new.
  - replace (Examples.filled (S n)) with (Send true (Examples.filled n) [x2a]).1.
    + eapply reachable_step; [apply IH; lia | constructor].
    + rewrite Send_open_room; [|cbn; rewrite length_replicate; lia | reflexivity].
      unfold Examples.filled, enqueue. cbn [fst send ID conn_closed send_cap cancelled filters].
      f_equal. symmetry. apply replicate_cons_app.
Qed.

Lemma saturated_reachable : reachable "slow" Examples.saturated.
Proof. apply filled_reachable. lia. Qed.

Lemma overflowed_reachable : reachable "slow" Examples.overflowed.
Proof.
  replace Examples.overflowed with (Send true Examples.saturated [x2a]).1.
  - eapply reachable_step; [exact saturated_reachable | constructor].
  - rewrite Send_no_room; [reflexivity | vm_compute; lia].
Qed.

Lemma saturated_send_witness :
  Send false Examples.saturated [x00] = (Close Examples.saturated, Some errBufferFull).
Proof.
  refine (proj1 (proj2 (proj2
    (proj2 (proj2 (saturated_send_fails_without_blocking "slow" Examples.saturated
                     saturated_reachable)) false [x00] _))) _);
    vm_compute; reflexivity.
Defined.

(** C6 as stated fails on a client that overflowed before: its queue is
    saturated, and the next [Send] reports a closed connection, not a full
    buffer. *)
Lemma saturated_send_on_closed_client :
  reachable "slow" Examples.overflowed
  /\ length (send Examples.overflowed) = send_cap Examples.overflowed
  /\ (forall pick_send,
        (Send pick_send Examples.overflowed [x00]).2 = Some errClosed)
  /\ errClosed <> errBufferFull.
Proof.
  split; [|split; [|split]].
  - exact overflowed_reachable.
  - vm_compute; reflexivity.
  - intros pick_send. vm_compute. reflexivity.
  - discriminate.
Qed.

(** *** No way back to open *)

Lemma Send_keeps_closed pick_send c message :
  (cancelled c = true -> cancelled (Send pick_send c message).1 = true)
  /\ (conn_closed c = true -> conn_closed (Send pick_send c message).1 = true)
  /\ (cancelled (Send pick_send c message).1 = true ->
      conn_closed (Send pick_send c message).1 = true
      \/ cancelled c = true).
Proof.
  unfold Send.
  destruct (length (send c) <? send_cap c)%nat, (cancelled c) eqn:Hc, pick_send;
    cbn [fst enqueue Close cancelled conn_closed]; rewrite ?Hc;
    intuition congruence.
Qed.

Lemma step_keeps_closed c c' :
  step c c' ->
  (cancelled c = true -> cancelled c' = true)
  /\ (conn_closed c = true -> conn_closed c' = true)
  /\ ((cancelled c = true -> conn_closed c = true) ->
      cancelled c' = true -> conn_closed c' = true).
Proof.
  intros [pick_send c0 message | c0 message c1 Hrecv | c0 | decoded c0].
  - destruct (Send_keeps_closed pick_send c0 message) as (H1 & H2 & H3).
    split; [exact H1|]. split; [exact H2|].
    intros Hinv Hc. destruct (H3 Hc) as [Hd|Hd]; [exact Hd | auto].
  - unfold receive in Hrecv. destruct (send c0); [discriminate|].
    injection Hrecv as _ <-. cbn [cancelled conn_closed]. intuition.
  - cbn [Close cancelled conn_closed]. intuition.
  - destruct (handleMessage_keeps_queue decoded c0) as (_ & _ & _ & -> & ->).
    intuition.
Qed.

(** X10.  No step of a client's life opens it again: once cancelled it
    stays cancelled and once its connection is closed it stays closed,
    through every [Send], receive, [Close] and inbound frame, and through
    every iteration of the writer; [Close] twice is [Close] once; and a
    client reached from [NewWebSocketClient] by these steps is never
    cancelled with its connection still open. *)
Theorem closed_client_stays_closed id c :
  reachable id c ->
  (cancelled c = true -> conn_closed c = true)
  /\ (forall c', step c c' ->
        (cancelled c = true -> cancelled c' = true)
        /\ (conn_closed c = true -> conn_closed c' = true))
  /\ (forall ev,
        (cancelled c = true -> cancelled (writerStep ev c).1.1 = true)
        /\ (conn_closed c = true -> conn_closed (writerStep ev c).1.1 = true))
  /\ Close (Close c) = Close c.
Proof.
  intros Hr. split; [|split; [|split]].
  - induction Hr as [|c c' _ IH Hstep]; [discriminate|].
    now apply (step_keeps_closed c c' Hstep).
  - intros c' Hstep. destruct (step_keeps_closed c c' Hstep) as (H1 & H2 & _).
    now split.
  - intros [nw cl|ok|]; unfold writerStep.
    + destruct (send c) as [|m q]; [now split|].
      destruct nw, cl; cbn [fst closeConn withQueue cancelled conn_closed];
        intuition.
    + destruct ok; cbn [fst closeConn cancelled conn_closed]; intuition.
    + cbn [fst closeConn cancelled conn_closed]. intuition.
  - reflexivity.
Qed.

Lemma closed_client_witness :
  conn_closed Examples.overflowed = true.
Proof.
  apply (proj1 (closed_client_stays_closed "slow" Examples.overflowed
                  overflowed_reachable)).
  reflexivity.
Defined.

(** *** Nothing lost between [Send] and the writer *)

Lemma Send_queue pick_send c message :
  send (Send pick_send c message).1
  = match (Send pick_send c message).2 with
    | None => send c ++ [message]
    | Some _ => send c
    end.
Proof.
  unfold Send.
  destruct (length (send c) <? send_cap c)%nat, (cancelled c), pick_send; reflexivity.
Qed.

Lemma writerStep_queue ev c :
  send c = concat (map batchMessages (writerStep ev c).1.2) ++ send (writerStep ev c).1.1.
Proof.
  destruct ev as [nw cl|ok|]; unfold writerStep.
  - destruct (send c) as [|m q] eqn:Hs; [cbn; now rewrite Hs|].
    destruct nw, cl; cbn; now rewrite ?app_nil_r.
  - destruct ok; reflexivity.
  - reflexivity.
Qed.

Lemma queueStep_conserves queue r op :
  queue ++ q_accepted r
  = concat (map batchMessages (q_taken r)) ++ send (q_client r) ->
  queue ++ q_accepted (queueStep r op)
  = concat (map batchMessages (q_taken (queueStep r op)))
    ++ send (q_client (queueStep r op)).
Proof.
  intros Hinv. destruct op as [pick_send message|ev]; unfold queueStep.
  - pose proof (Send_queue pick_send (q_client r) message) as Hq.
    destruct (Send pick_send (q_client r) message) as [c [err|]];
      cbn [fst snd q_accepted q_taken q_client] in *; rewrite Hq.
    + exact Hinv.
    + now rewrite !app_assoc, Hinv.
  - destruct (q_writing r); [|exact Hinv].
    pose proof (writerStep_queue ev (q_client r)) as Hq.
    destruct (writerStep ev (q_client r)) as [[c out] running].
    cbn [fst snd q_accepted q_taken q_client] in *.
    rewrite map_app, concat_app, <- app_assoc, <- Hq. exact Hinv.
Qed.

(** X11.  Between the broadcasters and the writer no message is lost,
    duplicated or reordered: after any interleaving of [Send]s and
    writer iterations, the messages that were in the queue at the start
    followed by those [Send] accepted are exactly the messages the writer
    took, batch after batch, followed by those still queued. *)
Theorem queue_conserves_messages c ops :
  send c ++ q_accepted (foldl queueStep (startRun c) ops)
  = concat (map batchMessages (q_taken (foldl queueStep (startRun c) ops)))
    ++ send (q_client (foldl queueStep (startRun c) ops)).
Proof.
  assert (Hgen : forall r,
            send c ++ q_accepted r
            = concat (map batchMessages (q_taken r)) ++ send (q_client r) ->
            send c ++ q_accepted (foldl queueStep r ops)
            = concat (map batchMessages (q_taken (foldl queueStep r ops)))
              ++ send (q_client (foldl queueStep r ops))).
  { induction ops as [|op ops IH]; intros r Hinv; [exact Hinv|].
    cbn [foldl]. apply IH. now apply queueStep_conserves. }
  apply Hgen. cbn. now rewrite app_nil_r.
Qed.

(** *** Frames *)

Lemma splitLines_line line :
  x0a ∉ line -> Spec.splitLines line = [line].
Proof.
  induction line as [|b line IH]; intros Hno; [reflexivity|].
  cbn [Spec.splitLines]. destruct (Byte.eqb b x0a) eqn:Hb.
  - apply Byte.byte_dec_bl in Hb. subst b. exfalso. apply Hno. left.
  - rewrite IH; [reflexivity|]. intros Hin. apply Hno. now right.
Qed.

Lemma splitLines_newline line rest :
  x0a ∉ line -> Spec.splitLines (line ++ x0a :: rest) = line :: Spec.splitLines rest.
Proof.
  induction line as [|b line IH]; intros Hno; [reflexivity|].
  cbn [app Spec.splitLines]. destruct (Byte.eqb b x0a) eqn:Hb.
  - apply Byte.byte_dec_bl in Hb. subst b. exfalso. apply Hno. left.
  - rewrite IH; [reflexivity|]. intros Hin. apply Hno. now right.
Qed.

(** X12.  The text frame of a batch is its messages joined by
    newlines: when no message contains a newline (as the output of
    [json.Marshal] never does), splitting the frame at the newlines gives
    back the messages of the batch, all of them and in order. *)
Theorem frame_lines_are_the_messages first queued :
  Forall (fun message => x0a ∉ message) (first :: queued) ->
  Spec.splitLines (frameBytes first queued) = first :: queued.
Proof.
  unfold frameBytes. revert first.
  induction queued as [|next queued IH]; intros first Hno.
  - cbn. rewrite app_nil_r. apply splitLines_line. now inversion Hno.
  - cbn [map concat]. inversion Hno as [|? ? Hfirst Hrest]; subst.
    change ((x0a :: next) ++ concat (map (fun message => x0a :: message) queued))
      with (x0a :: (next ++ concat (map (fun message => x0a :: message) queued))).
    rewrite splitLines_newline by exact Hfirst. f_equal. now apply IH.
Qed.

Lemma frame_lines_witness :
  Spec.splitLines (frameBytes [x7b; x7d] [[x5b; x5d]; []]) = [[x7b; x7d]; [x5b; x5d]; []].
Proof.
  apply (frame_lines_are_the_messages [x7b; x7d] [[x5b; x5d]; []]).
  repeat constructor; intros Hin; repeat (inversion Hin as [|? ? ? Hin']; subst; clear Hin; rename Hin' into Hin).
Defined.

(** *** Filling the queue *)

Lemma sendAll_closed_full picks n messages c :
  cancelled c = true -> (send_cap c <= length (send c))%nat ->
  Spec.sendAll picks n messages c
  = (c, replicate (length messages) (Some errClosed)).
Proof.
  intros Hc Hfull. revert n.
  induction messages as [|message messages IH]; intros n; [reflexivity|].
  cbn [Spec.sendAll]. rewrite Send_no_room by exact Hfull. rewrite Hc.
  now rewrite IH.
Qed.

(** X13.  A series of [Send]s to an open client that nobody drains: the
    messages that fit in the free space are queued in order and accepted;
    the first one that does not fit is refused with the full-buffer
    error and closes the client; every later one is refused with the
    closed error.  The queue ends as the old queue followed by the
    accepted messages, and the client is closed exactly when there were
    more messages than free space. *)
Theorem sends_until_overflow picks n messages c :
  cancelled c = false ->
  (length (send c) <= send_cap c)%nat ->
  send (Spec.sendAll picks n messages c).1
  = send c ++ take (send_cap c - length (send c)) messages
  /\ (Spec.sendAll picks n messages c).2
     = replicate (min (send_cap c - length (send c)) (length messages)) None
       ++ (if (send_cap c - length (send c) <? length messages)%nat
           then Some errBufferFull
                :: replicate (length messages - (send_cap c - length (send c)) - 1)
                     (Some errClosed)
           else [])
  /\ cancelled (Spec.sendAll picks n messages c).1
     = (send_cap c - length (send c) <? length messages)%nat.
Proof.
  revert n c. induction messages as [|message messages IH]; intros n c Hopen Hle.
  - cbn [Spec.sendAll fst snd length]. rewrite take_nil, Nat.min_0_r, app_nil_r.
    change (send_cap c - length (send c) <? 0)%nat with false.
    repeat split. exact Hopen.
  - cbn [Spec.sendAll].
    destruct (Nat.eq_dec (length (send c)) (send_cap c)) as [Hfull|Hroom].
    + rewrite Send_no_room by lia. rewrite Hopen.
      rewrite sendAll_closed_full by (cbn [Close cancelled send send_cap]; (reflexivity || lia)).
      replace (send_cap c - length (send c))%nat with 0%nat by lia.
      cbn [fst snd Close send cancelled take length Nat.min replicate app Nat.ltb Nat.leb].
      rewrite app_nil_r, Nat.sub_0_r. repeat split.
      f_equal. f_equal. lia.
    + rewrite Send_open_room by (lia || exact Hopen).
      specialize (IH (S n) (enqueue message c)).
      cbn [enqueue cancelled send send_cap] in IH. rewrite length_app in IH.
      cbn [length] in IH.
      destruct IH as (IH1 & IH2 & IH3); [exact Hopen | lia |].
      destruct (Spec.sendAll picks (S n) messages (enqueue message c)) as [c2 errs].
      cbn [fst snd] in *.
      destruct (send_cap c - length (send c))%nat as [|room] eqn:Hr; [lia|].
      replace (send_cap c - (length (send c) + 1))%nat with room in * by lia.
      cbn [take length Nat.min replicate app].
      rewrite IH1, IH2, IH3, <- app_assoc. cbn [app].
      change (S room <? S (length messages))%nat with (room <? length messages)%nat.
      repeat split.
Qed.

Lemma sends_until_overflow_witness :
  (Spec.sendAll (fun _ => true) 0 [[x01]; [x02]; [x03]] (Examples.filled 254)).2
  = [None; None; Some errBufferFull].
Proof.
  refine (proj1 (proj2 (sends_until_overflow (fun _ => true) 0 [[x01]; [x02]; [x03]]
                          (Examples.filled 254) eq_refl _))).
  vm_compute. lia.
Defined.

End WSProps.

(** ** The broadcast service *)

Module ServiceProps.
Import WS Service.

Lemma broadcast_lookup eventJSON h id :
  clients (broadcastRawEvent eventJSON h) !! id
  = (fun client => (Send (ready_pick h (ID client)) client eventJSON).1)
      <$> clients h !! id.
Proof. unfold broadcastRawEvent. cbn [clients]. apply lookup_fmap. Qed.

Lemma broadcast_keeps_registry eventJSON h :
  dom (clients (broadcastRawEvent eventJSON h)) = dom (clients h)
  /\ size (clients (broadcastRawEvent eventJSON h)) = size (clients h).
Proof.
  unfold broadcastRawEvent. cbn [clients]. split.
  - apply dom_fmap_L.
  - apply map_size_fmap.
Qed.

(** C1, as the code has it.  When exactly one registered client has a
    full queue and all clients are open, a broadcast appends the message
    to the queue of every other client and changes nothing else of them,
    it closes the full client and leaves its queue as it was, and the
    registry keeps all its entries: the full client is still registered
    after the broadcast. *)
Theorem broadcast_with_one_full_queue eventJSON h fullID full :
  clients h !! fullID = Some full ->
  length (send full) = send_cap full ->
  cancelled full = false ->
  (forall id c, clients h !! id = Some c -> id <> fullID ->
                (length (send c) < send_cap c)%nat /\ cancelled c = false) ->
  (forall id c, clients h !! id = Some c -> id <> fullID ->
                clients (broadcastRawEvent eventJSON h) !! id
                = Some (enqueue eventJSON c))
  /\ clients (broadcastRawEvent eventJSON h) !! fullID = Some (Close full)
  /\ dom (clients (broadcastRawEvent eventJSON h)) = dom (clients h)
  /\ size (clients (broadcastRawEvent eventJSON h)) = size (clients h).
Proof.
  intros Hfull Hsat Hopen Hothers. split; [|split].
  - intros id c Hc Hne. destruct (Hothers id c Hc Hne) as [Hroom Hlive].
    rewrite broadcast_lookup, Hc. cbn.
    now rewrite WSProps.Send_open_room.
  - rewrite broadcast_lookup, Hfull. cbn.
    rewrite WSProps.Send_no_room by lia. now rewrite Hopen.
  - apply broadcast_keeps_registry.
Qed.

Lemma twoClients_lookup id :
  clients Examples.twoClients !! id
  = if decide (id = "fast"%string) then Some (NewWebSocketClient "fast")
    else if decide (id = "slow"%string) then Some Examples.saturated
    else None.
Proof.
  unfold Examples.twoClients, RegisterClient. cbn [clients].
  change (ID (NewWebSocketClient "fast")) with "fast"%string.
  change (ID Examples.saturated) with "slow"%string.
  rewrite !lookup_insert, lookup_empty.
  repeat case_decide; congruence.
Qed.

Lemma broadcast_with_one_full_queue_witness :
  clients (broadcastRawEvent [x01] Examples.twoClients) !! "fast"%string
  = Some (enqueue [x01] (NewWebSocketClient "fast"))
  /\ clients (broadcastRawEvent [x01] Examples.twoClients) !! "slow"%string
     = Some (Close Examples.saturated)
  /\ size (clients (broadcastRawEvent [x01] Examples.twoClients))
     = size (clients Examples.twoClients).
Proof.
  assert (H1 : clients Examples.twoClients !! "slow"%string = Some Examples.saturated)
    by (rewrite twoClients_lookup; reflexivity).
  assert (H2 : length (send Examples.saturated) = send_cap Examples.saturated)
    by (vm_compute; reflexivity).
  assert (H3 : cancelled Examples.saturated = false) by (vm_compute; reflexivity).
  assert (H4 : forall id c, clients Examples.twoClients !! id = Some c ->
                 id <> "slow"%string ->
                 (length (send c) < send_cap c)%nat /\ cancelled c = false).
  { intros id c Hc Hne. rewrite twoClients_lookup in Hc.
    repeat case_decide; try congruence.
    injection Hc as <-. split; [vm_compute; lia | reflexivity]. }
  destruct (broadcast_with_one_full_queue [x01] Examples.twoClients "slow"
              Examples.saturated H1 H2 H3 H4) as (Ho & Hf & _ & Hs).
  split; [|split; [exact Hf | exact Hs]].
  apply Ho; [rewrite twoClients_lookup; reflexivity | discriminate].
Defined.

(** C1 as stated fails: of the two registered clients one has a full
    queue, and after the broadcast the registry still has two entries,
    the full client among them. *)
Lemma full_client_stays_registered :
  size (clients Examples.twoClients) = 2%nat
  /\ length (send Examples.saturated) = send_cap Examples.saturated
  /\ size (clients (broadcastRawEvent [x01] Examples.twoClients)) = 2%nat
  /\ clients (broadcastRawEvent [x01] Examples.twoClients) !! "slow"%string
     = Some (Close Examples.saturated).
Proof.
  assert (Hsize : size (clients Examples.twoClients) = 2%nat).
  { unfold Examples.twoClients, RegisterClient. cbn [clients].
    rewrite map_size_insert_None.
    - now rewrite map_size_insert_None, map_size_empty by apply lookup_empty.
    - rewrite lookup_insert_ne by discriminate. apply lookup_empty. }
  split; [exact Hsize|]. split; [vm_compute; reflexivity|].
  split.
  - now rewrite (proj2 (broadcast_keeps_registry [x01] Examples.twoClients)).
  - rewrite broadcast_lookup, twoClients_lookup. reflexivity.
Qed.

(** *** Interest filters *)

Lemma Send_withoutFilters pick_send c message :
  withoutFilters (Send pick_send c message).1
  = (Send pick_send (withoutFilters c) message).1.
Proof.
  unfold Send. cbn [withoutFilters send send_cap cancelled].
  destruct (length (send c) <? send_cap c)%nat, (cancelled c), pick_send; reflexivity.
Qed.

Lemma Send_filters pick_send c message :
  filters (Send pick_send c message).1 = filters c.
Proof.
  unfold Send.
  destruct (length (send c) <? send_cap c)%nat, (cancelled c), pick_send; reflexivity.
Qed.

Lemma handleMessage_withoutFilters decoded c :
  withoutFilters (handleMessage decoded c).1 = withoutFilters c.
Proof.
  destruct (WSProps.handleMessage_keeps_queue decoded c) as (H1 & H2 & H3 & H4 & H5).
  unfold withoutFilters. now rewrite H1, H2, H3, H4, H5.
Qed.

Lemma broadcast_withoutFilters eventJSON h1 h2 :
  ready_pick h1 = ready_pick h2 ->
  withoutFilters <$> clients h1 = withoutFilters <$> clients h2 ->
  withoutFilters <$> clients (broadcastRawEvent eventJSON h1)
  = withoutFilters <$> clients (broadcastRawEvent eventJSON h2).
Proof.
  intros Hpick Hsame. apply map_eq. intros id.
  rewrite !lookup_fmap, !broadcast_lookup.
  assert (Hid : withoutFilters <$> clients h1 !! id = withoutFilters <$> clients h2 !! id)
    by (rewrite <- !lookup_fmap; now rewrite Hsame).
  destruct (clients h1 !! id) as [c1|], (clients h2 !! id) as [c2|];
    try discriminate Hid; [|reflexivity].
  assert (Hc : withoutFilters c1 = withoutFilters c2)
    by (apply (inj Some); exact Hid).
  change (Some (withoutFilters (Send (ready_pick h1 (ID c1)) c1 eventJSON).1)
          = Some (withoutFilters (Send (ready_pick h2 (ID c2)) c2 eventJSON).1)).
  f_equal. rewrite !Send_withoutFilters, Hpick, Hc.
  replace (ID c1) with (ID c2).
  - reflexivity.
  - change (ID (withoutFilters c2) = ID (withoutFilters c1)). now rewrite Hc.
Qed.

Lemma foldl_handleMessage_withoutFilters frames c :
  withoutFilters (foldl (fun c decoded => (handleMessage decoded c).1) c frames)
  = withoutFilters c.
Proof.
  revert c. induction frames as [|decoded frames IH]; intros c; [reflexivity|].
  cbn [foldl]. now rewrite IH, handleMessage_withoutFilters.
Qed.

Lemma afterFrames_sameButFilters frames h :
  Spec.sameButFilters (clients (Spec.afterFrames frames h)) (clients h).
Proof.
  unfold Spec.sameButFilters, Spec.afterFrames. cbn [clients].
  rewrite <- map_fmap_compose. apply map_fmap_ext.
  intros id c _. apply foldl_handleMessage_withoutFilters.
Qed.

Lemma broadcastEvent_withoutFilters Hash_Hex json_Marshal event h1 h2 :
  ready_pick h1 = ready_pick h2 ->
  Spec.sameButFilters (clients h1) (clients h2) ->
  Spec.sameButFilters (clients (broadcastEvent Hash_Hex json_Marshal event h1))
    (clients (broadcastEvent Hash_Hex json_Marshal event h2)).
Proof.
  intros Hpick Hsame. unfold broadcastEvent.
  destruct (json_Marshal (eventFields Hash_Hex event)) as [eventJSON|].
  - now apply broadcast_withoutFilters.
  - exact Hsame.
Qed.

(** C9.  A broadcast does not look at the interest filters.  Of two
    registries that differ in the filters of their clients only, and
    under the same scheduling, a broadcast of the same event leaves
    registries that again differ in the filters only: the same clients
    hold the same queues and are open or closed alike, and every
    client keeps its filters.  Registries that differ by [filter]
    frames handled by the clients are such a pair, and the same holds of
    a message broadcast as it is (the derived alert). *)
Theorem broadcast_ignores_interest_filters Hash_Hex json_Marshal event h1 h2 :
  ready_pick h1 = ready_pick h2 ->
  Spec.sameButFilters (clients h1) (clients h2) ->
  Spec.sameButFilters (clients (broadcastEvent Hash_Hex json_Marshal event h1))
    (clients (broadcastEvent Hash_Hex json_Marshal event h2))
  /\ (forall id,
        send <$> clients (broadcastEvent Hash_Hex json_Marshal event h1) !! id
        = send <$> clients (broadcastEvent Hash_Hex json_Marshal event h2) !! id)
  /\ (forall id,
        filters <$> clients (broadcastEvent Hash_Hex json_Marshal event h1) !! id
        = filters <$> clients h1 !! id)
  /\ (forall frames,
        Spec.sameButFilters
          (clients (broadcastEvent Hash_Hex json_Marshal event (Spec.afterFrames frames h1)))
          (clients (broadcastEvent Hash_Hex json_Marshal event h1)))
  /\ (forall eventJSON,
        Spec.sameButFilters (clients (broadcastRawEvent eventJSON h1))
          (clients (broadcastRawEvent eventJSON h2))).
Proof.
  intros Hpick Hsame.
  pose proof (broadcastEvent_withoutFilters Hash_Hex json_Marshal event h1 h2
                Hpick Hsame) as Hafter.
  split; [exact Hafter|]. split; [|split; [|split]].
  - intros id.
    assert (Hid : withoutFilters
                    <$> clients (broadcastEvent Hash_Hex json_Marshal event h1) !! id
                  = withoutFilters
                    <$> clients (broadcastEvent Hash_Hex json_Marshal event h2) !! id)
      by (rewrite <- !lookup_fmap; now rewrite Hafter).
    destruct (clients (broadcastEvent Hash_Hex json_Marshal event h1) !! id) as [c1|],
      (clients (broadcastEvent Hash_Hex json_Marshal event h2) !! id) as [c2|];
      try discriminate Hid; [|reflexivity].
    apply (inj Some) in Hid.
    change (Some (send (withoutFilters c1)) = Some (send (withoutFilters c2))).
    now rewrite Hid.
  - intros id. unfold broadcastEvent.
    destruct (json_Marshal (eventFields Hash_Hex event)) as [eventJSON|];
      [|reflexivity].
    rewrite broadcast_lookup.
    destruct (clients h1 !! id) as [c|]; [|reflexivity].
    cbn. now rewrite Send_filters.
  - intros frames. apply broadcastEvent_withoutFilters; [reflexivity|].
    apply afterFrames_sameButFilters.
  - intros eventJSON. now apply broadcast_withoutFilters.
Qed.

Lemma broadcast_ignores_interest_filters_witness :
  send <$> clients (broadcastEvent Examples.hexStub Examples.marshalStub
                      (Listener.blockEvent Examples.smallBlock)
                      Examples.blockOnlyClients) !! "fast"%string
  = send <$> clients (broadcastEvent Examples.hexStub Examples.marshalStub
                        (Listener.blockEvent Examples.smallBlock)
                        Examples.twoClients) !! "fast"%string.
Proof.
  refine (proj1 (proj2
    (broadcast_ignores_interest_filters Examples.hexStub Examples.marshalStub
       (Listener.blockEvent Examples.smallBlock)
       Examples.blockOnlyClients Examples.twoClients _ _)) "fast"%string).
  - reflexivity.
  - vm_compute. reflexivity.
Defined.

(** The frame of the example does change the filters it is about. *)
Example filterFrame_sets_filters :
  filters <$> clients Examples.blockOnlyClients !! "fast"%string
  = Some {| EventTypes := ["new_block"%string]; ContractAddress := ["0xabc"%string] |}
  /\ filters <$> clients Examples.twoClients !! "fast"%string
     = Some {| EventTypes := []; ContractAddress := [] |}.
Proof. split; vm_compute; reflexivity. Qed.

(** *** The derived alert *)

Section Alert.
Variable Hash_Hex : common.Hash -> string.
Variable Address_Hex : common.Address -> string.
Variable BigInt_String : Z -> string.
Variable json_Marshal : list (string * Field) -> option (list byte).

Lemma Start_registers pick :
  Tx.handlers
    (txProcessor
       (Start Hash_Hex Address_Hex BigInt_String json_Marshal None (NewService pick)).1)
  = [highValueHandler Hash_Hex Address_Hex BigInt_String json_Marshal]
  /\ listener
       (Start Hash_Hex Address_Hex BigInt_String json_Marshal None (NewService pick)).1
     !! Listener.EventTypeNewTransaction
     = Some [BroadcastHandler; TransactionWrapper].
Proof. split; [reflexivity | vm_compute; reflexivity]. Qed.

Lemma runHandler_wrapper block tx s :
  hub (runHandler Hash_Hex json_Marshal TransactionWrapper (Listener.txEvent block tx) s)
  = Tx.onNewTransaction (txProcessor s) tx (Listener.blk_Hash block)
      (Listener.blk_NumberU64 block) (hub s).
Proof. reflexivity. Qed.

(** C3, as the code has it.  [Start] registers one handler on the
    transaction processor.  For a transaction event, when the active
    filter rejects the transaction the handler is not run and nothing
    changes; otherwise, that is with no filter installed or with a filter
    the transaction passes, the [high_value_transaction] message is
    broadcast whatever the value of the transaction is; the threshold of
    1 ETH decides only whether a line is logged before. *)
Theorem alert_sent_for_every_filter_match pick s block tx eventJSON :
  Tx.handlers (txProcessor s) = [highValueHandler Hash_Hex Address_Hex BigInt_String json_Marshal] ->
  json_Marshal
    (highValueFields Hash_Hex Address_Hex BigInt_String
       (Tx.newInfo tx (Listener.blk_Hash block) (Listener.blk_NumberU64 block)))
  = Some eventJSON ->
  Tx.handlers
    (txProcessor
       (Start Hash_Hex Address_Hex BigInt_String json_Marshal None (NewService pick)).1)
  = [highValueHandler Hash_Hex Address_Hex BigInt_String json_Marshal]
  /\ (Tx.filteredOut (txProcessor s)
        (Tx.newInfo tx (Listener.blk_Hash block) (Listener.blk_NumberU64 block)) = true ->
      hub (runHandler Hash_Hex json_Marshal TransactionWrapper
             (Listener.txEvent block tx) s) = hub s)
  /\ (Tx.filteredOut (txProcessor s)
        (Tx.newInfo tx (Listener.blk_Hash block) (Listener.blk_NumberU64 block)) = false ->
      hub (runHandler Hash_Hex json_Marshal TransactionWrapper
             (Listener.txEvent block tx) s)
      = broadcastRawEvent eventJSON
          (if (oneEther <? Tx.tx_Value tx)%Z
           then Printf (log.HighValueDetected (Tx.tx_Hash tx) (Tx.tx_Value tx)) (hub s)
           else hub s)).
Proof.
  intros Hh Hjson. split; [apply Start_registers|].
  rewrite runHandler_wrapper. unfold Tx.onNewTransaction, Tx.handlerCalls.
  split; intros Hf; rewrite Hf; [reflexivity|].
  rewrite Hh. cbn [map foldl]. unfold highValueHandler. rewrite Hjson.
  reflexivity.
Qed.

End Alert.

Lemma alert_sent_witness :
  hub (runHandler Examples.hexStub Examples.marshalStub TransactionWrapper
         (Listener.txEvent Examples.smallBlock Examples.txNoSender)
         Examples.startedService)
  = broadcastRawEvent
      (list_byte_of_string "high_value_transaction0x0x0x00x")
      (hub Examples.startedService).
Proof.
  refine (proj2 (proj2
    (alert_sent_for_every_filter_match Examples.hexStub Examples.hexStub
       Examples.decimalStub Examples.marshalStub (fun _ => true)
       Examples.startedService Examples.smallBlock Examples.txNoSender
       (list_byte_of_string "high_value_transaction0x0x0x00x") _ _)) _);
    vm_compute; reflexivity.
Defined.

(** C3 as stated fails: the transaction of [smallBlock] has a value of
    7 wei, far below 1 ETH; it passes the active filter, and the one
    registered client finds the [high_value_transaction] message in its
    queue, which was empty before. *)
Lemma alert_sent_below_threshold :
  (Tx.tx_Value Examples.txNoSender <= oneEther)%Z
  /\ Tx.filter (txProcessor Examples.startedService) = Some Examples.lowValueFilter
  /\ Tx.matchesFilter Examples.lowValueFilter
       (Tx.newInfo Examples.txNoSender 9 1) = true
  /\ send <$> clients (hub Examples.startedService) !! "fast"%string = Some []
  /\ send <$> clients
       (hub (runHandler Examples.hexStub Examples.marshalStub TransactionWrapper
               (Listener.txEvent Examples.smallBlock Examples.txNoSender)
               Examples.startedService)) !! "fast"%string
     = Some [list_byte_of_string "high_value_transaction0x0x0x00x"]
  /\ Examples.marshalStub
       (highValueFields Examples.hexStub Examples.hexStub Examples.decimalStub
          (Tx.newInfo Examples.txNoSender 9 1))
     = Some (list_byte_of_string "high_value_transaction0x0x0x00x").
Proof.
  split; [vm_compute; discriminate|].
  repeat split; vm_compute; reflexivity.
Qed.

(** *** Watched addresses *)

(** X4.  [WatchAddress] installs a filter on the sender alone, and a
    later watch replaces an earlier one: after two of them a transaction
    reaches the handlers exactly when its sender ([From], the zero
    address when it was not recovered) is the address watched last,
    whoever its recipient is; the handlers, the registry and the
    listener are as before. *)
Theorem watch_address_keeps_last_sender_only a1 a2 s tx blockHash blockNumber :
  Tx.filteredOut (txProcessor (WatchAddress a2 (WatchAddress a1 s)))
    (Tx.newInfo tx blockHash blockNumber)
  = negb (N.eqb (match Tx.tx_Sender tx with
                 | Some from => from
                 | None => common.zeroAddress
                 end) a2)
  /\ Tx.handlers (txProcessor (WatchAddress a2 (WatchAddress a1 s)))
     = Tx.handlers (txProcessor s)
  /\ hub (WatchAddress a2 (WatchAddress a1 s)) = hub s
  /\ listener (WatchAddress a2 (WatchAddress a1 s)) = listener s.
Proof.
  split; [|repeat split].
  unfold WatchAddress, AddTransactionFilter, Tx.filteredOut, Tx.WithFilter,
    Tx.matchesFilter.
  cbn [txProcessor Tx.filter Tx.FromAddress Tx.ToAddress Tx.MinValue
       Tx.OnlyContractTxs Tx.MethodSignature Tx.From Tx.newInfo].
  destruct (N.eqb _ a2); reflexivity.
Qed.

(** *** Inbound frames *)

Lemma stringsOf_stringItems items : stringsOf items = Spec.stringItems items.
Proof.
  induction items as [|item items IH]; [reflexivity|].
  unfold stringsOf in *.
  destruct item; cbn [omap list_omap asString Spec.stringItems];
    try f_equal; exact IH.
Qed.

Lemma handleMessage_filter msg c :
  asString (msg !! "type"%string) = Some "filter"%string ->
  (handleMessage (Some msg) c).2 = None
  /\ EventTypes (filters (handleMessage (Some msg) c).1)
     = match asArray (msg !! "eventTypes"%string) with
       | Some items => Spec.stringItems items
       | None => EventTypes (filters c)
       end
  /\ ContractAddress (filters (handleMessage (Some msg) c).1)
     = match asArray (msg !! "contracts"%string) with
       | Some items => Spec.stringItems items
       | None => ContractAddress (filters c)
       end.
Proof.
  intros Ht. unfold handleMessage. rewrite Ht.
  change (String.eqb "filter" "subscribe") with false.
  change (String.eqb "filter" "filter") with true. cbv iota.
  destruct (asArray (msg !! "eventTypes"%string)) as [types|],
    (asArray (msg !! "contracts"%string)) as [contracts|];
    cbn; rewrite ?stringsOf_stringItems; repeat split.
Qed.

(** X14.  A [filter] frame replaces the list of event types when it
    carries an array under [eventTypes] and the list of contracts when
    it carries one under [contracts], keeping of each array the strings
    in order; a list whose key is missing or is no array stays.  So after
    two [filter] frames each list is the one of the last frame that
    carried it; no [filter] frame asks for a subscription or touches
    anything else of the client. *)
Theorem filter_frames_last_list_wins m1 m2 c :
  asString (m1 !! "type"%string) = Some "filter"%string ->
  asString (m2 !! "type"%string) = Some "filter"%string ->
  EventTypes (filters (handleMessage (Some m2) (handleMessage (Some m1) c).1).1)
  = match asArray (m2 !! "eventTypes"%string), asArray (m1 !! "eventTypes"%string) with
    | Some items, _ => Spec.stringItems items
    | None, Some items => Spec.stringItems items
    | None, None => EventTypes (filters c)
    end
  /\ ContractAddress (filters (handleMessage (Some m2) (handleMessage (Some m1) c).1).1)
     = match asArray (m2 !! "contracts"%string), asArray (m1 !! "contracts"%string) with
       | Some items, _ => Spec.stringItems items
       | None, Some items => Spec.stringItems items
       | None, None => ContractAddress (filters c)
       end
  /\ (handleMessage (Some m1) c).2 = None
  /\ (handleMessage (Some m2) (handleMessage (Some m1) c).1).2 = None
  /\ withoutFilters (handleMessage (Some m2) (handleMessage (Some m1) c).1).1
     = withoutFilters c.
Proof.
  intros H1 H2.
  destruct (handleMessage_filter m1 c H1) as (Hr1 & He1 & Hc1).
  destruct (handleMessage_filter m2 (handleMessage (Some m1) c).1 H2) as (Hr2 & He2 & Hc2).
  rewrite He2, Hc2, He1, Hc1.
  split; [|split; [|split; [exact Hr1|split; [exact Hr2|]]]].
  - destruct (asArray (m2 !! "eventTypes"%string)),
      (asArray (m1 !! "eventTypes"%string)); reflexivity.
  - destruct (asArray (m2 !! "contracts"%string)),
      (asArray (m1 !! "contracts"%string)); reflexivity.
  - now rewrite !handleMessage_withoutFilters.
Qed.

Lemma filter_frames_witness :
  EventTypes (filters (handleMessage (Some Examples.secondFilterFrame)
                         (handleMessage (Some Examples.filterFrame)
                            (NewWebSocketClient "fast")).1).1)
  = ["contract_event"%string]
  /\ ContractAddress (filters (handleMessage (Some Examples.secondFilterFrame)
                                 (handleMessage (Some Examples.filterFrame)
                                    (NewWebSocketClient "fast")).1).1)
     = ["0xabc"%string].
Proof.
  destruct (filter_frames_last_list_wins Examples.filterFrame Examples.secondFilterFrame
              (NewWebSocketClient "fast")) as (He & Hc & _);
    [vm_compute; reflexivity | vm_compute; reflexivity |].
  split; [exact He | exact Hc].
Defined.

Section Subscribe.
Variable HexToAddress : string -> common.Address.
Variable HexToHash : string -> common.Hash.

(** X15.  A [subscribe] frame that names a contract leaves the client
    as it is and asks for one log subscription on that contract.  The
    strings of its [events] array become the alternatives of the first
    topic; a frame without [events], with [events] that is no array, or
    with an array holding no string subscribes to all events of the
    contract (no topic). *)
Theorem subscribe_frame_query msg c contract :
  asString (msg !! "type"%string) = Some "subscribe"%string ->
  asString (msg !! "contract"%string) = Some contract ->
  (handleMessage (Some msg) c).1 = c
  /\ frameQuery HexToAddress HexToHash (Some msg) c
     = Some {| Addresses := [HexToAddress contract];
               Topics := match asArray (msg !! "events"%string) with
                         | Some items =>
                             match Spec.stringItems items with
                             | [] => []
                             | sig :: sigs => [map HexToHash (sig :: sigs)]
                             end
                         | None => []
                         end |}.
Proof.
  intros Ht Hc. unfold frameQuery, handleMessage. rewrite Ht.
  change (String.eqb "subscribe" "subscribe") with true. cbv iota. rewrite Hc.
  cbn [fst snd]. split; [reflexivity|].
  unfold SubscribeToContract. f_equal. f_equal.
  destruct (asArray (msg !! "events"%string)) as [items|]; [|reflexivity].
  rewrite stringsOf_stringItems.
  destruct (Spec.stringItems items); reflexivity.
Qed.

(** X16.  Only a decodable frame whose [type] is the string
    [subscribe] and whose [contract] is a string asks for a
    subscription: every other frame, an undecodable one included, asks
    for nothing. *)
Theorem only_subscribe_frames_subscribe decoded c query :
  frameQuery HexToAddress HexToHash decoded c = Some query ->
  exists msg contract,
    decoded = Some msg
    /\ asString (msg !! "type"%string) = Some "subscribe"%string
    /\ asString (msg !! "contract"%string) = Some contract
    /\ Addresses query = [HexToAddress contract].
Proof.
  unfold frameQuery, handleMessage. destruct decoded as [msg|]; [|discriminate].
  destruct (asString (msg !! "type"%string)) as [msgType|] eqn:Ht; [|discriminate].
  destruct (String.eqb_spec msgType "subscribe") as [->|Hne].
  - destruct (asString (msg !! "contract"%string)) as [contract|] eqn:Hc; [|discriminate].
    cbn [snd]. intros [= <-]. exists msg, contract. repeat split; assumption.
  - destruct (String.eqb msgType "filter"); discriminate.
Qed.

End Subscribe.

Lemma subscribe_frame_witness :
  frameQuery Examples.addressStub Examples.hashStub (Some Examples.subscribeFrame)
    (NewWebSocketClient "fast")
  = Some {| Addresses := [5]; Topics := [[6]] |}.
Proof.
  refine (proj2 (subscribe_frame_query Examples.addressStub Examples.hashStub
                   Examples.subscribeFrame (NewWebSocketClient "fast") "0xabc" _ _));
    vm_compute; reflexivity.
Defined.

Lemma only_subscribe_frames_witness :
  exists msg contract,
    Some Examples.subscribeFrame = Some msg
    /\ asString (msg !! "type"%string) = Some "subscribe"%string
    /\ asString (msg !! "contract"%string) = Some contract
    /\ Addresses {| Addresses := [5]; Topics := [[6]] |}
       = [Examples.addressStub contract].
Proof.
  apply (only_subscribe_frames_subscribe Examples.addressStub Examples.hashStub
           (Some Examples.subscribeFrame) (NewWebSocketClient "fast")).
  vm_compute. reflexivity.
Defined.

(** *** The registry *)

(** X17.  [UnregisterClient] removes the entry of that ID and no other,
    so the registry shrinks by one when the ID was registered and is
    unchanged otherwise; a second call with the same ID changes nothing;
    the log is not written. *)
Theorem unregister_removes_only_that_client clientID h :
  clients (UnregisterClient clientID h) !! clientID = None
  /\ (forall other, other <> clientID ->
        clients (UnregisterClient clientID h) !! other = clients h !! other)
  /\ size (clients (UnregisterClient clientID h))
     = (size (clients h)
        - match clients h !! clientID with Some _ => 1 | None => 0 end)%nat
  /\ UnregisterClient clientID (UnregisterClient clientID h)
     = UnregisterClient clientID h
  /\ (clients h !! clientID = None -> UnregisterClient clientID h = h)
  /\ logged (UnregisterClient clientID h) = logged h.
Proof.
  unfold UnregisterClient.
  destruct (clients h !! clientID) as [c|] eqn:Hc; cbn [clients logged].
  - split; [apply lookup_delete_eq|]. split; [intros; now apply lookup_delete_ne|].
    split; [rewrite map_size_delete, Hc; lia|].
    split; [|split; [discriminate | reflexivity]].
    now rewrite lookup_delete_eq.
  - rewrite Hc. repeat split; try assumption. lia.
Qed.

Lemma unregister_unknown_witness :
  UnregisterClient "nobody" Examples.twoClients = Examples.twoClients.
Proof.
  apply (proj1 (proj2 (proj2 (proj2 (proj2
           (unregister_removes_only_that_client "nobody" Examples.twoClients)))))).
  rewrite twoClients_lookup. reflexivity.
Defined.

(** X18.  [RegisterClient] files the client under its own ID and
    leaves every other entry alone; an ID already registered is taken
    over by the new client, so that no ID ever has two entries; with a
    fresh ID the registry grows by one, and unregistering that ID
    afterwards gives back the registry as it was. *)
Theorem register_files_client_under_its_id client h :
  clients (RegisterClient client h) !! ID client = Some client
  /\ (forall other, other <> ID client ->
        clients (RegisterClient client h) !! other = clients h !! other)
  /\ size (clients (RegisterClient client h))
     = (size (clients h)
        + match clients h !! ID client with Some _ => 0 | None => 1 end)%nat
  /\ (clients h !! ID client = None ->
      UnregisterClient (ID client) (RegisterClient client h) = h).
Proof.
  unfold RegisterClient. cbn [clients].
  split; [apply lookup_insert_eq|]. split; [intros; now apply lookup_insert_ne|].
  split.
  - destruct (clients h !! ID client) as [c|] eqn:Hc.
    + rewrite map_size_insert, Hc. cbn. lia.
    + rewrite map_size_insert, Hc. cbn. lia.
  - intros Hfresh. unfold UnregisterClient. cbn [clients ready_pick logged].
    rewrite lookup_insert_eq, delete_insert_id by exact Hfresh.
    now destruct h.
Qed.

Lemma register_witness :
  UnregisterClient "fast" (RegisterClient (NewWebSocketClient "fast")
                             {| clients := ∅; ready_pick := fun _ => true; logged := [] |})
  = {| clients := ∅; ready_pick := fun _ => true; logged := [] |}.
Proof.
  apply (proj2 (proj2 (proj2 (register_files_client_under_its_id
                                (NewWebSocketClient "fast")
                                {| clients := ∅; ready_pick := fun _ => true;
                                   logged := [] |})))).
  apply lookup_empty.
Defined.

(** X19.  The removal that the broadcast leaves to others: when
    exactly one registered client has a full queue and all are open, a
    broadcast followed by [UnregisterClient] for the full client leaves
    a registry with one entry less, in which the full client is gone and
    every other client holds the message at the end of its queue. *)
Theorem unregister_after_overflow eventJSON h fullID full :
  clients h !! fullID = Some full ->
  length (send full) = send_cap full ->
  cancelled full = false ->
  (forall id c, clients h !! id = Some c -> id <> fullID ->
                (length (send c) < send_cap c)%nat /\ cancelled c = false) ->
  clients (UnregisterClient fullID (broadcastRawEvent eventJSON h)) !! fullID = None
  /\ size (clients (UnregisterClient fullID (broadcastRawEvent eventJSON h)))
     = (size (clients h) - 1)%nat
  /\ (forall id c, clients h !! id = Some c -> id <> fullID ->
        clients (UnregisterClient fullID (broadcastRawEvent eventJSON h)) !! id
        = Some (enqueue eventJSON c)).
Proof.
  intros Hfull Hsat Hopen Hothers.
  assert (Hreg : clients (broadcastRawEvent eventJSON h) !! fullID = Some (Close full)).
  { rewrite broadcast_lookup, Hfull. cbn.
    rewrite WSProps.Send_no_room by lia. now rewrite Hopen. }
  unfold UnregisterClient. rewrite Hreg. cbn [clients].
  split; [apply lookup_delete_eq|]. split.
  - rewrite map_size_delete, Hreg.
    rewrite (proj2 (broadcast_keeps_registry eventJSON h)). lia.
  - intros id c Hc Hne. destruct (Hothers id c Hc Hne) as [Hroom Hlive].
    rewrite lookup_delete_ne by congruence.
    rewrite broadcast_lookup, Hc. cbn. now rewrite WSProps.Send_open_room.
Qed.

Lemma unregister_after_overflow_witness :
  size (clients (UnregisterClient "slow" (broadcastRawEvent [x01] Examples.twoClients)))
  = (size (clients Examples.twoClients) - 1)%nat.
Proof.
  refine (proj1 (proj2 (unregister_after_overflow [x01] Examples.twoClients "slow"
                          Examples.saturated _ _ _ _))).
  - rewrite twoClients_lookup; reflexivity.
  - vm_compute; reflexivity.
  - reflexivity.
  - intros id c Hc Hne. rewrite twoClients_lookup in Hc.
    repeat case_decide; try congruence.
    injection Hc as <-. split; [vm_compute; lia | reflexivity].
Defined.

(** X20.  [Stop] closes every registered client and deletes none: the
    registry has the same IDs, each client is cancelled with its
    connection closed and its queue as it was; [Stop] twice is [Stop]
    once; and on a stopped registry every [Send] that fails reports a
    closed connection. *)
Theorem Stop_closes_and_keeps_every_client h :
  (forall id, clients (Stop h) !! id = Close <$> clients h !! id)
  /\ dom (clients (Stop h)) = dom (clients h)
  /\ size (clients (Stop h)) = size (clients h)
  /\ Stop (Stop h) = Stop h
  /\ (forall id c pick_send message err,
        clients (Stop h) !! id = Some c ->
        (Send pick_send c message).2 = Some err -> err = errClosed).
Proof.
  split; [intros id; unfold Stop; cbn [clients]; apply lookup_fmap|].
  split; [unfold Stop; cbn [clients]; apply dom_fmap_L|].
  split; [unfold Stop; cbn [clients]; apply map_size_fmap|].
  split.
  - unfold Stop. cbn [clients ready_pick logged]. f_equal.
    rewrite <- map_fmap_compose. apply map_fmap_ext. intros id c _. reflexivity.
  - intros id c pick_send message err Hc. unfold Stop in Hc. cbn [clients] in Hc.
    rewrite lookup_fmap in Hc.
    destruct (clients h !! id) as [c0|]; [|discriminate].
    injection Hc as <-. unfold Send. cbn [Close cancelled send send_cap].
    destruct (length (send c0) <? send_cap c0)%nat, pick_send; cbn [snd];
      congruence.
Qed.

(** *** A transaction event, end to end *)

Section EndToEnd.
Variable Hash_Hex : common.Hash -> string.
Variable Address_Hex : common.Address -> string.
Variable BigInt_String : Z -> string.
Variable json_Marshal : list (string * Field) -> option (list byte).

Lemma raw_lookup_open eventJSON h id c :
  clients h !! id = Some c ->
  cancelled c = false -> (length (send c) < send_cap c)%nat ->
  clients (broadcastRawEvent eventJSON h) !! id = Some (enqueue eventJSON c).
Proof.
  intros Hc Hopen Hroom. rewrite broadcast_lookup, Hc. cbn.
  now rewrite WSProps.Send_open_room.
Qed.

Lemma highValueHandler_clients info h alertJSON :
  json_Marshal (highValueFields Hash_Hex Address_Hex BigInt_String info) = Some alertJSON ->
  clients (highValueHandler Hash_Hex Address_Hex BigInt_String json_Marshal info h)
  = clients (broadcastRawEvent alertJSON h).
Proof.
  intros Hj. unfold highValueHandler. rewrite Hj.
  destruct (oneEther <? Tx.Value info)%Z; reflexivity.
Qed.

Lemma wrapper_clients s block tx :
  Tx.handlers (txProcessor s)
  = [highValueHandler Hash_Hex Address_Hex BigInt_String json_Marshal] ->
  clients (hub (runHandler Hash_Hex json_Marshal TransactionWrapper
                  (Listener.txEvent block tx) s))
  = if Tx.filteredOut (txProcessor s)
         (Tx.newInfo tx (Listener.blk_Hash block) (Listener.blk_NumberU64 block))
    then clients (hub s)
    else clients (highValueHandler Hash_Hex Address_Hex BigInt_String json_Marshal
                    (Tx.newInfo tx (Listener.blk_Hash block)
                       (Listener.blk_NumberU64 block)) (hub s)).
Proof.
  intros Hh. rewrite runHandler_wrapper.
  unfold Tx.onNewTransaction, Tx.handlerCalls.
  destruct (Tx.filteredOut _ _); [reflexivity|]. now rewrite Hh.
Qed.

(** X21.  Once the service is set up, a transaction event starts two
    handlers, the broadcasting one and the wrapper of the processor.
    Whichever of the two runs first, an open client with room for two
    messages ends with its old queue followed by the [new_transaction]
    message alone when the filter rejects the transaction, and by that
    message and the [high_value_transaction] message, in the order the
    handlers ran, when the transaction passes. *)
Theorem transaction_event_reaches_client_twice s block tx eventJSON alertJSON id c :
  listener s !! Listener.EventTypeNewTransaction
  = Some [BroadcastHandler; TransactionWrapper] ->
  Tx.handlers (txProcessor s)
  = [highValueHandler Hash_Hex Address_Hex BigInt_String json_Marshal] ->
  json_Marshal (eventFields Hash_Hex (Listener.txEvent block tx)) = Some eventJSON ->
  json_Marshal
    (highValueFields Hash_Hex Address_Hex BigInt_String
       (Tx.newInfo tx (Listener.blk_Hash block) (Listener.blk_NumberU64 block)))
  = Some alertJSON ->
  clients (hub s) !! id = Some c ->
  cancelled c = false ->
  (length (send c) + 2 <= send_cap c)%nat ->
  Listener.notifyHandlers (listener s) (Listener.txEvent block tx)
  = [(BroadcastHandler, Listener.txEvent block tx);
     (TransactionWrapper, Listener.txEvent block tx)]
  /\ send <$> clients
       (hub (runHandler Hash_Hex json_Marshal TransactionWrapper (Listener.txEvent block tx)
               (runHandler Hash_Hex json_Marshal BroadcastHandler
                  (Listener.txEvent block tx) s))) !! id
     = Some (send c ++
             if Tx.filteredOut (txProcessor s)
                  (Tx.newInfo tx (Listener.blk_Hash block) (Listener.blk_NumberU64 block))
             then [eventJSON] else [eventJSON; alertJSON])
  /\ send <$> clients
       (hub (runHandler Hash_Hex json_Marshal BroadcastHandler (Listener.txEvent block tx)
               (runHandler Hash_Hex json_Marshal TransactionWrapper
                  (Listener.txEvent block tx) s))) !! id
     = Some (send c ++
             if Tx.filteredOut (txProcessor s)
                  (Tx.newInfo tx (Listener.blk_Hash block) (Listener.blk_NumberU64 block))
             then [eventJSON] else [alertJSON; eventJSON]).
Proof.
  intros Hl Hh Hev Hal Hc Hopen Hroom. split; [|split].
  - unfold Listener.notifyHandlers.
    change (Listener.ev_Type (Listener.txEvent block tx))
      with Listener.EventTypeNewTransaction.
    now rewrite Hl.
  - rewrite wrapper_clients by exact Hh.
    change (txProcessor (runHandler Hash_Hex json_Marshal BroadcastHandler
                           (Listener.txEvent block tx) s)) with (txProcessor s).
    change (hub (runHandler Hash_Hex json_Marshal BroadcastHandler
                   (Listener.txEvent block tx) s))
      with (broadcastEvent Hash_Hex json_Marshal (Listener.txEvent block tx) (hub s)).
    unfold broadcastEvent. rewrite Hev.
    pose proof (raw_lookup_open eventJSON (hub s) id c Hc Hopen ltac:(lia)) as H1.
    destruct (Tx.filteredOut _ _).
    + now rewrite H1.
    + rewrite (highValueHandler_clients _ _ alertJSON Hal).
      rewrite (raw_lookup_open alertJSON _ id _ H1);
        [| exact Hopen | cbn [enqueue send send_cap]; rewrite length_app; cbn; lia].
      cbn. now rewrite <- app_assoc.
  - change (hub (runHandler Hash_Hex json_Marshal BroadcastHandler
                   (Listener.txEvent block tx)
                   (runHandler Hash_Hex json_Marshal TransactionWrapper
                      (Listener.txEvent block tx) s)))
      with (broadcastEvent Hash_Hex json_Marshal (Listener.txEvent block tx)
              (hub (runHandler Hash_Hex json_Marshal TransactionWrapper
                      (Listener.txEvent block tx) s))).
    unfold broadcastEvent. rewrite Hev.
    pose proof (wrapper_clients s block tx Hh) as Hw.
    destruct (Tx.filteredOut _ _).
    + rewrite (raw_lookup_open eventJSON _ id c); [reflexivity | | exact Hopen | lia].
      now rewrite Hw.
    + rewrite (highValueHandler_clients _ _ alertJSON Hal) in Hw.
      pose proof (raw_lookup_open alertJSON (hub s) id c Hc Hopen ltac:(lia)) as H1.
      rewrite <- Hw in H1.
      rewrite (raw_lookup_open eventJSON _ id _ H1);
        [| exact Hopen | cbn [enqueue send send_cap]; rewrite length_app; cbn; lia].
      cbn. now rewrite <- app_assoc.
Qed.

End EndToEnd.

Lemma transaction_event_witness :
  send <$> clients
    (hub (runHandler Examples.hexStub Examples.marshalStub TransactionWrapper
            (Listener.txEvent Examples.smallBlock Examples.txNoSender)
            (runHandler Examples.hexStub Examples.marshalStub BroadcastHandler
               (Listener.txEvent Examples.smallBlock Examples.txNoSender)
               Examples.startedService))) !! "fast"%string
  = Some [list_byte_of_string "new_transaction0x0x";
          list_byte_of_string "high_value_transaction0x0x0x00x"].
Proof.
  refine (proj1 (proj2
    (transaction_event_reaches_client_twice Examples.hexStub Examples.hexStub
       Examples.decimalStub Examples.marshalStub Examples.startedService
       Examples.smallBlock Examples.txNoSender
       (list_byte_of_string "new_transaction0x0x")
       (list_byte_of_string "high_value_transaction0x0x0x00x")
       "fast" (NewWebSocketClient "fast") _ _ _ _ _ _ _)));
    try (vm_compute; reflexivity).
  vm_compute. lia.
Defined.

End ServiceProps.
